(** * VTOL: the vehicle controller of [src/vtol.py]

    A shallow embedding of the class [VTOL] (command dispatch, the four
    maneuvers, [change_status], the telemetry loop, the start of an AUTO
    mission and the attitude commands) and the properties of its
    command/state machine.

    Modelling conventions.
    - Python values that arrive from the radio or from the configuration
      file are [pyval]s; a subscript that fails raises [KeyError] or
      [TypeError] exactly where the Python expression would.
    - A Python float is an IEEE 754 double.  What is read from the
      vehicle is a rational ([Q]): every finite double is one, and doubles
      compare exactly.  The product [altitude * 0.95], whose rounding
      decides when [takeoff] stops waiting, and the quotient
      [battery.level / 100.0] are computed as the interpreter does them,
      rounded to the nearest double.  The subtraction and the addition of
      the time stamp take the values the link holds, whose types are
      decided outside the repository: they are parameters.
    - The autopilot (the [dronekit.Vehicle] base class) is outside the
      repository.  Every read of one of its attributes consumes the next
      [Snapshot] of a finite observation [feed]; every write or call is an
      [Event] appended to the [log].  A run whose feed is exhausted while
      the code still wants to read is [Pending]: the finite feed is a prefix
      of an unbounded mission and the code is still blocked in its loop. *)

From Stdlib Require Import QArith Qabs Qround SpecFloat.
From stdpp Require Import gmap strings list.

Local Open Scope string_scope.
Local Open Scope list_scope.

(** ** Python values *)

#[warnings="-register-all"]
Inductive pyval : Type :=
| PNone
| PBool (b : bool)
| PInt (z : Z)
| PFloat (q : Q)
| PStr (s : string)
| PList (l : list pyval)
| PDict (d : gmap string pyval).

Inductive exn : Type :=
| KeyError (key : string)
| TypeError
| OverflowError
| Exception (msg : string).

Inductive pyresult (A : Type) : Type :=
| Value (a : A)
| Error (e : exn).
Arguments Value {A} a.
Arguments Error {A} e.

(** [v[k]] for a string key [k]: only a dict can be subscripted by a
    string; a missing key is a [KeyError]. *)
Definition py_getitem (v : pyval) (k : string) : pyresult pyval :=
  match v with
  | PDict d => match d !! k with
               | Some x => Value x
               | None => Error (KeyError k)
               end
  | _ => Error TypeError
  end.

(** [v == s] for a string literal [s]. *)
Definition py_eq_str (v : pyval) (s : string) : bool :=
  match v with
  | PStr t => String.eqb t s
  | _ => false
  end.

(** [v in (s1, ..., sn)] for a tuple of string literals. *)
Definition py_in (v : pyval) (tuple : list string) : bool :=
  existsb (py_eq_str v) tuple.

(** The number a value stands for in arithmetic ([bool] is a subtype of
    [int] in Python); [None] for a value that is not a number. *)
Definition as_number (v : pyval) : option Q :=
  match v with
  | PBool b => Some (if b then 1 else 0)%Q
  | PInt z => Some (inject_Z z)
  | PFloat q => Some q
  | _ => None
  end.

Definition Qlt_bool (x y : Q) : bool := negb (Qle_bool y x).

(** *** Doubles

    A double is a [spec_float] of precision 53 and maximal exponent 1024;
    operations round to nearest, ties to even. *)

(** [float(z)] for an [int]: the nearest double, infinite when [z] is
    beyond the range of the doubles. *)
Definition double_of_Z (z : Z) : spec_float :=
  binary_normalize 53 1024 z 0 false.

(** The double nearest to a rational: what a float literal denotes. *)
Definition double_of_Q (q : Q) : spec_float :=
  match Qnum q with
  | Z0 => S754_zero false
  | Zpos n =>
      SFdiv 53 1024 (S754_finite false n 0) (S754_finite false (Qden q) 0)
  | Zneg n =>
      SFdiv 53 1024 (S754_finite true n 0) (S754_finite false (Qden q) 0)
  end.

(** The rational a finite double is, in lowest terms. *)
Definition double_value (x : spec_float) : option Q :=
  match x with
  | S754_zero _ => Some 0%Q
  | S754_finite s m e =>
      let n := if s then Zneg m else Zpos m in
      Some (Qred (match e with
                  | Zneg k => n # (2 ^ k)%positive
                  | _ => inject_Z (n * 2 ^ e)
                  end))
  | S754_infinity _ | S754_nan => None
  end.

(** [a < x] for a finite [a]. *)
Definition lt_double (a : Q) (x : spec_float) : bool :=
  match x with
  | S754_infinity s => negb s
  | S754_nan => false
  | _ => match double_value x with
         | Some q => Qlt_bool a q
         | None => false
         end
  end.

(** [v * c] for a float literal [c]: an [int] is converted to a double
    first, which fails for one too large ([bool] is a subtype of [int]);
    the product of the two doubles is rounded.  Other values cannot be
    multiplied by a float. *)
Definition py_mul_float (v : pyval) (c : Q) : pyresult spec_float :=
  match v with
  | PBool b =>
      Value (SFmul 53 1024 (double_of_Z (if b then 1 else 0)) (double_of_Q c))
  | PInt z =>
      match double_of_Z z with
      | S754_infinity _ => Error OverflowError
      | x => Value (SFmul 53 1024 x (double_of_Q c))
      end
  | PFloat q => Value (SFmul 53 1024 (double_of_Q q) (double_of_Q c))
  | _ => Error TypeError
  end.

(** [z / c] for an [int] [z] and a float literal [c] that is not zero:
    the [int] is converted to a double, which fails for one too large,
    and the quotient of the two doubles is rounded. *)
Definition py_div_float (z : Z) (c : Q) : pyresult Q :=
  match double_of_Z z with
  | S754_infinity _ => Error OverflowError
  | x => match double_value (SFdiv 53 1024 x (double_of_Q c)) with
         | Some q => Value q
         | None => Error OverflowError
         end
  end.
Arguments py_div_float : simpl never.

(** [x > v] for a float [x]; comparing a float with a value that is not a
    number is a [TypeError]. *)
Definition py_float_gt (x : Q) (v : pyval) : pyresult bool :=
  match as_number v with
  | Some q => Value (Qlt_bool q x)
  | None => Error TypeError
  end.

(** ** Collaborators outside the repository *)

(** [dronekit.LocationGlobalRelative(lat, lon, alt)]: the constructor stores
    its arguments as given. *)
Record LocationGlobalRelative : Type := {
  lat : pyval;
  lon : pyval;
  alt : pyval
}.

(** [util.get_distance_metres] and the built-in [round] used by
    [update_thread] are not part of the repository's sources: they are an
    interface the controller is parameterised by.  So are the subtraction
    [time.clock() - con_timestamp] and the addition [... + gcs_timestamp]
    of the time stamp: what Python computes for them depends on the types
    (int or float) that the link gives its two time stamps. *)
Class Externals : Type := {
  get_distance_metres : LocationGlobalRelative → LocationGlobalRelative → Q;
  round : Q → Q;
  time_sub : Q → Q → Q;
  time_add : Q → Q → Q
}.

(** What one read of the vehicle object observes: the attributes kept up
    to date by the autopilot link ([is_armable], [armed],
    [location.global_relative_frame], [battery.level]), the process clock
    [time.clock()], and the flag [MISSION_COMPLETED] that another thread
    sets. *)
Record Snapshot : Type := {
  is_armable : bool;
  armed : bool;
  pos_lat : Q;
  pos_lon : Q;
  rel_alt : Q;
  battery_level : option Z;
  clock : Q;
  MISSION_COMPLETED : bool
}.

Definition global_relative_frame (s : Snapshot) : LocationGlobalRelative :=
  {| lat := PFloat (pos_lat s); lon := PFloat (pos_lon s);
     alt := PFloat (rel_alt s) |}.

(** The message built by [update_thread]. *)
Record UpdateMessage : Type := {
  m_type : string;
  m_time : Q;
  m_sid : pyval;
  m_tid : Z;
  m_id : Z;
  m_vehicleType : string;
  m_lat : Q;
  m_lon : Q;
  m_status : pyval;
  m_battery : Q
}.

(** Modelled from the spec: the class [Coms] (module [coms]) is missing
    from the sources.  The spec's ClockOffset is the pair
    {localOriginTime, peerOriginTime}, established once at link
    establishment and read-only thereafter ([con_timestamp] and
    [gcs_timestamp] in [update_thread]); message identifiers come from a
    per-process monotonically increasing counter. *)
Record Coms : Type := {
  con_timestamp : Q;
  gcs_timestamp : Q;
  msg_counter : Z
}.

(** What the controller does to the outside world, in program order. *)
Inductive Event : Type :=
| EPrint (msg : string) (arg : option Q)
| ESleep (seconds : Z)
| ESetMode (mode : string)
| ESetArmed (b : bool)
| ESimpleTakeoff (altitude : pyval)
| ESimpleGoto (point : LocationGlobalRelative) (airspeed : pyval)
| ESendTillAck (address : pyval) (message : UpdateMessage) (id : Z).

(** ** The vehicle object and its environment *)

Record World : Type := {
  status : pyval;
  configs : pyval;
  land_mode : string;
  coms : Coms;
  feed : list Snapshot;
  log : list Event
}.

Definition set_status (st : pyval) (w : World) : World :=
  {| status := st; configs := configs w; land_mode := land_mode w;
     coms := coms w; feed := feed w; log := log w |}.

Definition set_coms (c : Coms) (w : World) : World :=
  {| status := status w; configs := configs w; land_mode := land_mode w;
     coms := c; feed := feed w; log := log w |}.

Definition set_feed (f : list Snapshot) (w : World) : World :=
  {| status := status w; configs := configs w; land_mode := land_mode w;
     coms := coms w; feed := f; log := log w |}.

Definition add_log (evs : list Event) (w : World) : World :=
  {| status := status w; configs := configs w; land_mode := land_mode w;
     coms := coms w; feed := feed w; log := log w ++ evs |}.

(** The world after more of the feed has been read and more events have
    been logged: what is left of the feed is [f], and [evs] are the new
    events. *)
Definition advance (f : list Snapshot) (evs : list Event) (w : World) : World :=
  {| status := status w; configs := configs w; land_mode := land_mode w;
     coms := coms w; feed := f; log := log w ++ evs |}.

(** The same world under another status and after an earlier history [l]. *)
Definition reframe (st : pyval) (l : list Event) (w : World) : World :=
  {| status := st; configs := configs w; land_mode := land_mode w;
     coms := coms w; feed := feed w; log := l ++ log w |}.

(** A vehicle object as the class body initialises it (status ["ready"],
    landing mode ["LAND"], nothing logged), given its link, its
    configuration and what it is going to observe. *)
Definition fresh (c : Coms) (cfg : pyval) (f : list Snapshot) : World :=
  {| status := PStr "ready"; configs := cfg; land_mode := "LAND";
     coms := c; feed := f; log := [] |}.

(** ** The monad of controller code *)

Inductive outcome (A : Type) : Type :=
| Done (a : A) (w : World)
| Raised (e : exn) (w : World)
| Pending (w : World).
Arguments Done {A} a w.
Arguments Raised {A} e w.
Arguments Pending {A} w.

Definition world_of {A : Type} (o : outcome A) : World :=
  match o with
  | Done _ w | Raised _ w | Pending w => w
  end.

Definition on_world {A : Type} (f : World → World) (o : outcome A) : outcome A :=
  match o with
  | Done a w => Done a (f w)
  | Raised e w => Raised e (f w)
  | Pending w => Pending (f w)
  end.

Definition M (A : Type) : Type := World → outcome A.

#[global] Instance M_ret : MRet M := λ A a w, Done a w.

#[global] Instance M_bind : MBind M := λ A B k m w,
  match m w with
  | Done a w' => k a w'
  | Raised e w' => Raised e w'
  | Pending w' => Pending w'
  end.

Definition raise {A : Type} (e : exn) : M A := λ w, Raised e w.

Definition lift {A : Type} (r : pyresult A) : M A :=
  match r with
  | Value a => mret a
  | Error e => raise e
  end.

Definition gets {A : Type} (f : World → A) : M A := λ w, Done (f w) w.

Definition emit (e : Event) : M unit := λ w, Done tt (add_log [e] w).

(** One read of an attribute of the vehicle object. *)
Definition read {A : Type} (attr : Snapshot → A) : M A := λ w,
  match feed w with
  | [] => Pending w
  | s :: f => Done (attr s) (set_feed f w)
  end.

Definition print (msg : string) : M unit := emit (EPrint msg None).
Definition print_num (msg : string) (x : Q) : M unit := emit (EPrint msg (Some x)).
Definition sleep (seconds : Z) : M unit := emit (ESleep seconds).

(** [self.configs[key]] *)
Definition config (key : string) : M pyval :=
  cfg ← gets configs; lift (py_getitem cfg key).

(** A Python loop: [step] runs one iteration and answers whether the loop
    goes round again.  Every loop of [vtol.py] reads the vehicle at least
    once per iteration, so a feed of [n] snapshots allows at most [n]
    complete iterations and iteration [n + 1] stops at its first read:
    [S n] rounds are always enough (see [loop_unfold] and
    [while_unfold]). *)
Fixpoint loop_rounds (n : nat) (step : M bool) (w : World) : outcome unit :=
  match n with
  | O => Pending w
  | S n' =>
      match step w with
      | Done true w' => loop_rounds n' step w'
      | Done false w' => Done tt w'
      | Raised e w' => Raised e w'
      | Pending w' => Pending w'
      end
  end.

Definition loop (step : M bool) : M unit :=
  λ w, loop_rounds (S (length (feed w))) step w.

(** [while cond: body] *)
Definition while (cond : M bool) (body : M unit) : M unit :=
  loop (b ← cond; if b : bool then body;; mret true else mret false).

(** ** The class [VTOL] *)

Section VTOL.
Context `{Externals}.

(** [VTOL.takeoff] *)
Definition takeoff : M unit :=
  print "Pre-arm checks";;
  while (ready ← read is_armable; mret (negb ready))
        (print "Waiting for vehicle to initialize";; sleep 1);;
  print "Arming motors";;
  emit (ESetMode "GUIDED");;
  emit (ESetArmed true);;
  while (on ← read armed; mret (negb on))
        (print "Waiting to arm vehicle";; sleep 1);;
  print "Taking off";;
  altitude ← config "altitude";
  emit (ESimpleTakeoff altitude);;
  while (a ← read rel_alt;
         target ← lift (py_mul_float altitude (95 # 100));
         mret (lt_double a target))
        (a ← read rel_alt; print_num "Altitude: " a;; sleep 1);;
  print "Reached target altitude".

(** [VTOL.go_to]: the [while True] loop breaks in its [else] branch. *)
Definition go_to (point : LocationGlobalRelative) : M unit :=
  speed ← config "air_speed";
  emit (ESimpleGoto point speed);;
  loop (here ← read global_relative_frame;
        let distance := get_distance_metres here point in
        tolerance ← config "waypoint_tolerance";
        far ← lift (py_float_gt distance tolerance);
        if far : bool
        then print_num "Distance remaining:" distance;; sleep 1;; mret true
        else mret false);;
  print "Target reached".

(** [VTOL.land] *)
Definition land : M unit :=
  mode ← gets land_mode;
  emit (ESetMode mode);;
  print "Landing...";;
  while (a ← read rel_alt; mret (Qlt_bool 0 a))
        (a ← read rel_alt; print_num "Altitude: " a;; sleep 1);;
  print "Landed";;
  print "Sleeping...";;
  sleep 5.

(** [VTOL.set_altitude]: the latitude and the longitude are two reads of
    [self.location.global_relative_frame]. *)
Definition set_altitude (altitude : pyval) : M unit :=
  print "Setting altitude:";;
  here_lat ← read pos_lat;
  here_lon ← read pos_lon;
  go_to {| lat := PFloat here_lat; lon := PFloat here_lon; alt := altitude |};;
  print "Altitude reached".

Definition statuses : list string :=
  ["ready"; "running"; "waiting"; "paused"; "error"].

(** [VTOL.change_status] *)
Definition change_status (new_status : pyval) : M unit :=
  if negb (py_in new_status statuses)
  then raise (Exception "Error: Unsupported status for vehicle")
  else λ w, Done tt (set_status new_status w).

Definition valid_commands : list string :=
  ["takeoff"; "land"; "go_to"; "set_altitude"].

(** [VTOL.coms_callback].  The arguments of a call are evaluated left to
    right before the call; [command["Type"]] is evaluated anew by every
    test of the [if]/[elif] chain, which has no [else]. *)
Definition coms_callback (command : pyval) : M unit :=
  ty ← lift (py_getitem command "Type");
  if negb (py_in ty valid_commands)
  then raise (Exception "Error: Unsupported status for vehicle")
  else
    ty ← lift (py_getitem command "Type");
    if py_eq_str ty "takeoff" then takeoff
    else
      ty ← lift (py_getitem command "Type");
      if py_eq_str ty "land" then land
      else
        ty ← lift (py_getitem command "Type");
        if py_eq_str ty "go_to" then
          body ← lift (py_getitem command "Body");
          point_lat ← lift (py_getitem body "Lat");
          body ← lift (py_getitem command "Body");
          point_lon ← lift (py_getitem body "Lon");
          body ← lift (py_getitem command "Body");
          point_alt ← lift (py_getitem body "Alt");
          go_to {| lat := point_lat; lon := point_lon; alt := point_alt |}
        else
          ty ← lift (py_getitem command "Type");
          if py_eq_str ty "set_altitude" then
            body ← lift (py_getitem command "Body");
            altitude ← lift (py_getitem body "Alt");
            set_altitude altitude
          else mret tt.

(** Modelled from the spec: [Coms.new_msg_id] is missing from the sources;
    it hands out the next value of the message counter. *)
Definition new_msg_id : M Z := λ w,
  let c := coms w in
  Done (msg_counter c)
       (set_coms {| con_timestamp := con_timestamp c;
                    gcs_timestamp := gcs_timestamp c;
                    msg_counter := msg_counter c + 1 |} w).

(** [self.battery.level / 100.0 if self.battery.level else 0.0]: the
    condition is one read and the division, when it is taken, another. *)
Definition battery_fraction : M Q :=
  level ← read battery_level;
  match level with
  | Some z =>
      if (z =? 0)%Z then mret 0%Q
      else
        level ← read battery_level;
        match level with
        | Some z' => lift (py_div_float z' 100)
        | None => raise TypeError
        end
  | None => mret 0%Q
  end.

(** The elapsed time of the "time" field of an update message. *)
Definition stamp (c : Coms) (now : Q) : Q :=
  time_add (round (time_sub now (con_timestamp c))) (gcs_timestamp c).

(** One round of the loop of [VTOL.update_thread]: [location] is one read
    of [self.location.global_frame], and the entries of the message are
    evaluated in the order they are written. *)
Definition update_cycle (address : pyval) : M unit :=
  location ← read (λ s, (pos_lat s, pos_lon s));
  battery ← battery_fraction;
  now ← read clock;
  origin ← gets (λ w, con_timestamp (coms w));
  peer ← gets (λ w, gcs_timestamp (coms w));
  sid ← config "vehicle_id";
  id ← new_msg_id;
  st ← gets status;
  let update_message :=
    {| m_type := "update";
       m_time := time_add (round (time_sub now origin)) peer;
       m_sid := sid;
       m_tid := 0;
       m_id := id;
       m_vehicleType := "VTOL";
       m_lat := location.1;
       m_lon := location.2;
       m_status := st;
       m_battery := battery |} in
  emit (ESendTillAck address update_message (m_id update_message));;
  sleep 1.

Definition newline : string := String (Ascii.ascii_of_nat 10) "".

(** [VTOL.update_thread] *)
Definition update_thread (address : pyval) : M unit :=
  print ("Starting update thread" +:+ newline);;
  while (completed ← read MISSION_COMPLETED; mret (negb completed))
        (update_cycle address);;
  change_status (PStr "ready").

End VTOL.

(** ** Sample data: a configuration, a link and observation feeds *)

(** A stand-in for [util.get_distance_metres] (the vertical separation of
    two points with numeric altitudes) and for [round] (half up). *)
Definition vertical_gap (a b : LocationGlobalRelative) : Q :=
  match as_number (alt a), as_number (alt b) with
  | Some x, Some y => Qabs (x - y)
  | _, _ => 0%Q
  end.

Definition sample_externals : Externals :=
  {| get_distance_metres := vertical_gap;
     round := λ q, inject_Z (Qfloor (q + (1 # 2)));
     time_sub := Qminus;
     time_add := Qplus |}.

Definition snap (armable on : bool) (a : Q) : Snapshot :=
  {| is_armable := armable; armed := on; pos_lat := 35; pos_lon := -120;
     rel_alt := a; battery_level := Some 80%Z; clock := 12;
     MISSION_COMPLETED := false |}.

Definition sample_configs : pyval :=
  PDict (<["altitude" := PInt 10]>
        (<["air_speed" := PInt 5]>
        (<["waypoint_tolerance" := PInt 2]>
        (<["vehicle_id" := PInt 7]> ∅)))).

Definition sample_coms : Coms :=
  {| con_timestamp := 3; gcs_timestamp := 100; msg_counter := 0 |}.

(** Armable at the third poll, armed at the second poll after the arm
    command, 95% of the 10 m target at the fourth altitude poll. *)
Definition takeoff_feed : list Snapshot :=
  [snap false false 0; snap false false 0; snap true false 0;
   snap true false 0; snap true true 0;
   snap true true 2; snap true true 2; snap true true 6; snap true true 6;
   snap true true 9; snap true true 9; snap true true (19 # 2);
   snap true true 10].

(** Distances 50, 10, 3, 1 to a target on the ground, then one more
    reading. *)
Definition goto_feed : list Snapshot :=
  [snap true true 50; snap true true 10; snap true true 3; snap true true 1;
   snap true true 0].

Definition ground_point : LocationGlobalRelative :=
  {| lat := PFloat 35; lon := PFloat (-120); alt := PInt 0 |}.

(** Five reads serve one round of the telemetry loop; then the mission is
    reported completed. *)
Definition completed_snap : Snapshot :=
  {| is_armable := true; armed := true; pos_lat := 35; pos_lon := -120;
     rel_alt := 0; battery_level := Some 80%Z; clock := 20;
     MISSION_COMPLETED := true |}.

Definition telemetry_feed : list Snapshot :=
  replicate 5 (snap true true 0) ++ [completed_snap].

Definition takeoff_command : pyval := PDict (<["Type" := PStr "takeoff"]> ∅).


Definition goto_command_without_lat : pyval :=
  PDict (<["Type" := PStr "go_to"]>
        (<["Body" := PDict (<["Lon" := PInt 1]> (<["Alt" := PInt 0]> ∅))]> ∅)).

(** ** Vocabulary of the statements *)

(** The reads of a loop that polls in its condition and reads once more in
    its body ([print(... + str(self...alt))]): each round that goes on
    takes a pair of snapshots, the polled one and the printed one. *)
Definition rounds_feed (rounds : list (Snapshot * Snapshot)) : list Snapshot :=
  concat (map (λ r, [r.1; r.2]) rounds).

(** The events of [n] rounds of a loop that prints a fixed message and
    sleeps one second. *)
Definition waits (msg : string) (n : nat) : list Event :=
  concat (replicate n [EPrint msg None; ESleep 1]).

(** The events of the rounds of a loop that prints a reading and sleeps
    one second. *)
Definition reports (msg : string) (readings : list Q) : list Event :=
  concat (map (λ x, [EPrint msg (Some x); ESleep 1]) readings).

(** Writes and calls that reach the autopilot, as opposed to output on the
    console and pauses. *)
Definition is_autopilot_call (e : Event) : bool :=
  match e with
  | ESetMode _ | ESetArmed _ | ESimpleTakeoff _ | ESimpleGoto _ _ => true
  | EPrint _ _ | ESleep _ | ESendTillAck _ _ _ => false
  end.

Definition autopilot_calls (evs : list Event) : list Event :=
  List.filter is_autopilot_call evs.

(** A world, and the end of a run, as the autopilot saw it: console output
    and pauses are dropped from the log. *)
Definition calls_only (w : World) : World :=
  {| status := status w; configs := configs w; land_mode := land_mode w;
     coms := coms w; feed := feed w; log := autopilot_calls (log w) |}.

Definition autopilot_view {A : Type} (o : outcome A) : outcome A :=
  on_world calls_only o.

(** The "time" fields of the update messages handed to the radio. *)
Definition sent_times (evs : list Event) : list Q :=
  concat (map (λ e, match e with
                    | ESendTillAck _ m _ => [m_time m]
                    | _ => []
                    end) evs).

(** A step that goes round again has read the vehicle. *)
Definition consuming (step : M bool) : Prop :=
  ∀ w w', step w = Done true w' → length (feed w') < length (feed w).

(** No computation gives snapshots back to the feed. *)
Definition shrinks : relation World :=
  λ w w', (length (feed w') <= length (feed w))%nat.

(** A computation is framed when running it under another status and after
    an earlier history gives the same run, with that status and that
    history carried along. *)
Class Framed {A : Type} (m : M A) : Prop :=
  framed : ∀ st l w, m (reframe st l w) = on_world (reframe st l) (m w).

(** [Respects R m]: however [m] ends (completed, raised or still blocked),
    the world it ends in is [R]-related to the world it started from. *)
Definition Respects {A : Type} (R : relation World) (m : M A) : Prop :=
  ∀ w, R w (world_of (m w)).

(** [Issues sel cfg m plan]: run under the configuration [cfg], the
    computation [m] only appends to the log and leaves the configuration
    alone; however it ends (completed, raised, still blocked), the events
    it has logged that [sel] selects are a prefix of [plan], and they are
    all of [plan] when it completes. *)
Definition Issues {A : Type} (sel : Event → bool) (cfg : pyval) (m : M A)
    (plan : list Event) : Prop :=
  ∀ w, configs w = cfg →
    ∃ evs, log (world_of (m w)) = log w ++ evs ∧
           configs (world_of (m w)) = cfg ∧
           List.filter sel evs `prefix_of` plan ∧
           (∀ a w', m w = Done a w' → List.filter sel evs = plan).

(** The update messages handed to the radio. *)
Definition is_send (e : Event) : bool :=
  match e with
  | ESendTillAck _ _ _ => true
  | _ => false
  end.


(** One of the five values [change_status] accepts. *)
Definition valid_status (v : pyval) : Prop :=
  ∃ s, In s statuses ∧ v = PStr s.

Definition goto_body : gmap string pyval :=
  <["Alt" := PInt 0]> (<["Lon" := PInt 2]> (<["Lat" := PInt 1]> ∅)).

Definition goto_command : pyval :=
  PDict (<["Type" := PStr "go_to"]>
        (<["Body" := PDict goto_body]> (<["Sid" := PInt 0]> ∅))).

(** What a telemetry thread for [address], started under status [st] with
    configuration [cfg], may do: write to the console, pause, and hand to
    the radio an update message for [address], to be acknowledged under
    its own identifier, from this vehicle to the ground station, reporting
    [st].  It asks nothing of the autopilot. *)
Definition update_event (address st cfg : pyval) (e : Event) : Prop :=
  match e with
  | ESendTillAck a m i =>
      a = address ∧ i = m_id m ∧ m_type m = "update" ∧ m_tid m = 0%Z ∧
      m_vehicleType m = "VTOL" ∧ m_status m = st ∧
      py_getitem cfg "vehicle_id" = Value (m_sid m)
  | EPrint _ _ | ESleep _ => True
  | ESetMode _ | ESetArmed _ | ESimpleTakeoff _ | ESimpleGoto _ _ => False
  end.

(** [reporting address w w']: from [w] to [w'] the status, the
    configuration and the landing mode stayed as they were, and what was
    logged are events of a telemetry thread for [address]. *)
Definition reporting (address : pyval) : relation World := λ w w',
  status w' = status w ∧ configs w' = configs w ∧
  land_mode w' = land_mode w ∧
  ∃ evs, log w' = log w ++ evs ∧
         Forall (update_event address (status w) (configs w)) evs.

(** The methods of the class as a client calls them, one after the other;
    a call that raises leaves the object as it was when it raised. *)
Inductive call : Type :=
| call_coms_callback (command : pyval)
| call_takeoff
| call_go_to (point : LocationGlobalRelative)
| call_land
| call_set_altitude (altitude : pyval)
| call_change_status (new_status : pyval)
| call_update_thread (address : pyval).

Definition invoke `{Externals} (c : call) : M unit :=
  match c with
  | call_coms_callback command => coms_callback command
  | call_takeoff => takeoff
  | call_go_to point => go_to point
  | call_land => land
  | call_set_altitude altitude => set_altitude altitude
  | call_change_status new_status => change_status new_status
  | call_update_thread address => update_thread address
  end.

Definition after_call `{Externals} : relation World :=
  λ w w', ∃ c, w' = world_of (invoke c w).

(** A reading of a vehicle whose battery level is not known. *)
Definition no_battery_snap : Snapshot :=
  {| is_armable := true; armed := true; pos_lat := 35; pos_lon := -120;
     rel_alt := 0; battery_level := None; clock := 12;
     MISSION_COMPLETED := false |}.

(** A feed on which the battery level is lost between the test of
    [battery.level] and the division. *)
Definition battery_lost_feed : list Snapshot :=
  [snap true true 0; snap true true 0; snap true true 0; no_battery_snap;
   completed_snap].

(** ** Mission start and attitude control *)

(** [start_auto_mission], [send_attitude_target] and [set_attitude] use
    neither the configuration, the status nor the radio link.  Besides the
    vehicle's readiness they read its heading [attitude.yaw] and the wall
    clock [time.time()], and they reach the autopilot through
    [commands.next] and [send_mavlink] too.  They run on a state of their
    own: the readings to come and the actions taken so far.  As above,
    each read of an attribute or of the clock takes one reading. *)
Record Reading : Type := {
  vehicle : Snapshot;
  attitude_yaw : Q;
  wall_clock : Q
}.

(** [mavutil.mavlink.MAV_CMD_MISSION_START] *)
Inductive MavCmd : Type := MAV_CMD_MISSION_START.

(** The messages built with [message_factory], by the arguments of the
    encoder. *)
Inductive MavlinkMessage : Type :=
| command_long_encode (target_system target_component : Z) (command : MavCmd)
    (confirmation : Z) (params : list Z)
| set_attitude_target_encode
    (time_boot_ms target_system target_component type_mask : Z)
    (q : list Q) (body_roll_rate body_pitch_rate : Z)
    (body_yaw_rate thrust : Q).

(** [util.to_quaternion] and [math.radians] are not part of the
    repository's sources either. *)
Class Geometry : Type := {
  to_quaternion : Q → Q → Q → list Q;
  radians : Q → Q
}.

Inductive Action : Type :=
| AEvent (e : Event)
| ANextCommand (n : Z)
| ASendMavlink (msg : MavlinkMessage)
| APause (seconds : Q).

Record Flight : Type := {
  readings : list Reading;
  actions : list Action
}.

(** A method has returned, or it is still waiting for a reading.  With
    numbers for arguments these methods raise nothing themselves. *)
Inductive answer (A : Type) : Type :=
| Returned (a : A) (fl : Flight)
| Blocked (fl : Flight).
Arguments Returned {A} a fl.
Arguments Blocked {A} fl.

Definition flight_of {A : Type} (r : answer A) : Flight :=
  match r with
  | Returned _ fl | Blocked fl => fl
  end.

Definition Fly (A : Type) : Type := Flight → answer A.

#[global] Instance Fly_ret : MRet Fly := λ A a fl, Returned a fl.

#[global] Instance Fly_bind : MBind Fly := λ A B k m fl,
  match m fl with
  | Returned a fl' => k a fl'
  | Blocked fl' => Blocked fl'
  end.

Definition observe {A : Type} (attr : Reading → A) : Fly A := λ fl,
  match readings fl with
  | [] => Blocked fl
  | r :: rs => Returned (attr r) {| readings := rs; actions := actions fl |}
  end.

Definition act (a : Action) : Fly unit := λ fl,
  Returned tt {| readings := readings fl; actions := actions fl ++ [a] |}.

Definition say (msg : string) : Fly unit := act (AEvent (EPrint msg None)).
Definition nap (seconds : Z) : Fly unit := act (AEvent (ESleep seconds)).

(** [self.send_mavlink(msg)] *)
Definition send_mavlink (msg : MavlinkMessage) : Fly unit :=
  act (ASendMavlink msg).

(** The loops of these methods read the vehicle or the clock once per
    iteration at least; they are bounded as [loop] is. *)
Fixpoint rounds (n : nat) (step : Fly bool) (fl : Flight) : answer unit :=
  match n with
  | O => Blocked fl
  | S n' =>
      match step fl with
      | Returned true fl' => rounds n' step fl'
      | Returned false fl' => Returned tt fl'
      | Blocked fl' => Blocked fl'
      end
  end.

Definition whilst (cond : Fly bool) (body : Fly unit) : Fly unit :=
  λ fl, rounds (S (length (readings fl)))
          (b ← cond; if b : bool then body;; mret true else mret false) fl.

(** [VTOL.start_auto_mission] *)
Definition start_auto_mission : Fly unit :=
  whilst (ready ← observe (λ r, is_armable (vehicle r)); mret (negb ready))
         (say " Waiting for vehicle to initialise...";; nap 1);;
  act (AEvent (ESetMode "GUIDED"));;
  act (AEvent (ESetArmed true));;
  whilst (on ← observe (λ r, armed (vehicle r)); mret (negb on))
         (say " Waiting for arming...";; nap 1);;
  act (ANextCommand 0);;
  act (AEvent (ESetMode "AUTO"));;
  let msg :=
    command_long_encode 0 0 MAV_CMD_MISSION_START 0 [0; 0; 0; 0; 0; 0; 0]%Z in
  send_mavlink msg;;
  act (ANextCommand 0).

Section Attitude.
Context `{Geometry}.

(** [VTOL.send_attitude_target], for numbers as angles, rate and thrust
    ([yaw_angle] may be [None]) and a boolean [use_yaw_rate]. *)
Definition send_attitude_target (roll_angle pitch_angle : Q)
    (yaw_angle : option Q) (yaw_rate : Q) (use_yaw_rate : bool) (thrust : Q) :
    Fly unit :=
  yaw_angle ← match yaw_angle with
              | None => observe attitude_yaw
              | Some yaw => mret yaw
              end;
  let msg :=
    set_attitude_target_encode 0 1 1
      (if use_yaw_rate then 0 else 4)
      (to_quaternion roll_angle pitch_angle yaw_angle)
      0 0 (radians yaw_rate) thrust in
  send_mavlink msg.

(** [VTOL.set_attitude] *)
Definition set_attitude (roll_angle pitch_angle : Q) (yaw_angle : option Q)
    (yaw_rate : Q) (use_yaw_rate : bool) (thrust duration : Q) : Fly unit :=
  send_attitude_target roll_angle pitch_angle yaw_angle yaw_rate
    use_yaw_rate thrust;;
  start ← observe wall_clock;
  whilst (now ← observe wall_clock; mret (Qlt_bool (now - start) duration))
         (send_attitude_target roll_angle pitch_angle yaw_angle yaw_rate
            use_yaw_rate thrust;;
          act (APause (1 # 10)));;
  send_attitude_target 0 0 (Some 0%Q) 0 true thrust.

End Attitude.

(** The attitude message for a heading that is known. *)
Definition attitude_message `{Geometry} (roll_angle pitch_angle yaw : Q)
    (yaw_rate : Q) (use_yaw_rate : bool) (thrust : Q) : MavlinkMessage :=
  set_attitude_target_encode 0 1 1 (if use_yaw_rate then 0 else 4)
    (to_quaternion roll_angle pitch_angle yaw) 0 0 (radians yaw_rate) thrust.

(** What reaches the vehicle: console output and pauses do not. *)
Definition reaches_vehicle (a : Action) : bool :=
  match a with
  | AEvent e => is_autopilot_call e
  | ANextCommand _ | ASendMavlink _ => true
  | APause _ => false
  end.

(** A loop that polls one reading in its condition and reads nothing in
    its body, as a recursion on the readings: [acts] is what a round of
    the body does. *)
Fixpoint poll (test : Reading → bool) (acts : list Action)
    (rs : list Reading) (done : list Action) : answer unit :=
  match rs with
  | [] => Blocked {| readings := []; actions := done |}
  | r :: rs' =>
      if test r then poll test acts rs' (done ++ acts)
      else Returned tt {| readings := rs'; actions := done |}
  end.

(** A loop that polls one reading in its condition and takes one more in
    its body: [acts y] is what a round of the body does with its reading
    [y]. *)
Fixpoint poll_read (test : Reading → bool) (acts : Reading → list Action)
    (rs : list Reading) (done : list Action) : answer unit :=
  match rs with
  | [] => Blocked {| readings := []; actions := done |}
  | r :: rs' =>
      if test r then
        match rs' with
        | [] => Blocked {| readings := []; actions := done |}
        | y :: rs'' => poll_read test acts rs'' (done ++ acts y)
        end
      else Returned tt {| readings := rs'; actions := done |}
  end.

(** The readings of the rounds of such a loop: for each round the reading
    polled in the condition, then the reading taken in the body. *)
Definition paired (rounds : list (Reading * Reading)) : list Reading :=
  concat (map (λ p, [p.1; p.2]) rounds).

(** A reading of a vehicle with the given readiness, heading and time. *)
Definition reading (armable on : bool) (yaw time : Q) : Reading :=
  {| vehicle := snap armable on 0; attitude_yaw := yaw; wall_clock := time |}.

(** A stand-in for [util.to_quaternion] and [math.radians]. *)
Definition sample_geometry : Geometry :=
  {| to_quaternion := λ roll pitch yaw, [roll; pitch; yaw];
     radians := λ degrees, (degrees * (355 # 113) / 180)%Q |}.

(** Readings during an attitude maneuver: headings of 10, 20 and 30
    degrees over 1.2 seconds. *)
Definition attitude_readings : list Reading :=
  [reading true true 10 0; reading true true 10 0;
   reading true true 10 (1 # 2); reading true true 20 (1 # 2);
   reading true true 30 (6 # 5)].

(** The readings of one cycle of the telemetry thread, in the order the
    cycle takes them: the test of [MISSION_COMPLETED], the position, the
    battery level for its test, the battery level for the division (taken
    only when the level was there and not zero at the test), the clock. *)
Record Cycle : Type := {
  c_test : Snapshot;
  c_place : Snapshot;
  c_level : Snapshot;
  c_division : option Snapshot;
  c_clock : Snapshot
}.

(** The readings of a cycle after its test. *)
Definition cycle_reads (c : Cycle) : list Snapshot :=
  c_place c :: c_level c :: option_list (c_division c) ++ [c_clock c].

Definition cycle_feed (c : Cycle) : list Snapshot :=
  c_test c :: cycle_reads c.

(** The battery readings of a cycle that goes through: the level is read a
    second time exactly when it was there and not zero the first time, and
    it is there the second time, a number that can be divided by 100.0. *)
Definition battery_read (c : Cycle) : bool :=
  match battery_level (c_level c), c_division c with
  | Some z, Some d =>
      negb (z =? 0)%Z &&
      match battery_level d with
      | Some z' => match py_div_float z' 100 with
                   | Value _ => true
                   | Error _ => false
                   end
      | None => false
      end
  | Some z, None => (z =? 0)%Z
  | None, Some _ => false
  | None, None => true
  end.

(** A cycle that goes through: the mission is not completed at its test. *)
Definition cycle_ok (c : Cycle) : bool :=
  negb (MISSION_COMPLETED (c_test c)) && battery_read c.

Definition cycle_battery (c : Cycle) : Q :=
  match c_division c with
  | Some d => match battery_level d with
              | Some z => match py_div_float z 100 with
                          | Value q => q
                          | Error _ => 0%Q
                          end
              | None => 0%Q
              end
  | None => 0%Q
  end.

(** The message of a cycle of a thread whose link was set up at [origin]
    with the station then at [peer]: its time is computed from the clock
    reading of that cycle. *)
Definition cycle_message `{Externals} (origin peer : Q) (st sid : pyval)
    (id : Z) (c : Cycle) : UpdateMessage :=
  {| m_type := "update";
     m_time := time_add (round (time_sub (clock (c_clock c)) origin)) peer;
     m_sid := sid;
     m_tid := 0;
     m_id := id;
     m_vehicleType := "VTOL";
     m_lat := pos_lat (c_place c);
     m_lon := pos_lon (c_place c);
     m_status := st;
     m_battery := cycle_battery c |}.

(** What the cycles of a thread log: each its message, under identifiers
    that count up from [id], and its pause. *)
Fixpoint cycle_events `{Externals} (address : pyval) (origin peer : Q)
    (st sid : pyval) (id : Z) (cycles : list Cycle) : list Event :=
  match cycles with
  | [] => []
  | c :: cs =>
      ESendTillAck address (cycle_message origin peer st sid id c) id ::
      ESleep 1 ::
      cycle_events address origin peer st sid (id + 1) cs
  end.

(** The world after the cycles of a thread, with [rest] left to read. *)
Definition reported `{Externals} (address sid : pyval) (cycles : list Cycle)
    (rest : list Snapshot) (w : World) : World :=
  {| status := status w; configs := configs w; land_mode := land_mode w;
     coms := {| con_timestamp := con_timestamp (coms w);
                gcs_timestamp := gcs_timestamp (coms w);
                msg_counter := msg_counter (coms w) +
                               Z.of_nat (length cycles) |};
     feed := rest;
     log := log w ++
            cycle_events address (con_timestamp (coms w))
              (gcs_timestamp (coms w)) (status w) sid (msg_counter (coms w))
              cycles |}.

(** The cycle of the sample telemetry feed. *)
Definition sample_cycle : Cycle :=
  {| c_test := snap true true 0; c_place := snap true true 0;
     c_level := snap true true 0; c_division := Some (snap true true 0);
     c_clock := snap true true 0 |}.

(** * Properties *)

(** ** Worlds and comparisons *)

Lemma advance_advance f1 e1 f2 e2 w :
  advance f2 e2 (advance f1 e1 w) = advance f2 (e1 ++ e2) w.
Proof. unfold advance; cbn. by rewrite app_assoc. Qed.

Lemma advance_set_feed f1 f2 e2 w :
  advance f2 e2 (set_feed f1 w) = advance f2 e2 w.
Proof. reflexivity. Qed.

Lemma set_feed_advance f1 e1 f2 w :
  set_feed f2 (advance f1 e1 w) = advance f2 e1 w.
Proof. reflexivity. Qed.

Lemma add_log_advance f1 e1 e2 w :
  add_log e2 (advance f1 e1 w) = advance f1 (e1 ++ e2) w.
Proof. unfold advance, add_log; cbn. by rewrite app_assoc. Qed.

Lemma add_log_add_log e1 e2 w : add_log e2 (add_log e1 w) = add_log (e1 ++ e2) w.
Proof. unfold add_log; cbn. by rewrite app_assoc. Qed.

Lemma advance_add_log e1 f e2 w :
  advance f e2 (add_log e1 w) = advance f (e1 ++ e2) w.
Proof. unfold advance, add_log; cbn. by rewrite app_assoc. Qed.

Lemma set_feed_add_log e f w : set_feed f (add_log e w) = advance f e w.
Proof. reflexivity. Qed.

Lemma add_log_set_feed e f w : add_log e (set_feed f w) = advance f e w.
Proof. reflexivity. Qed.

Lemma set_feed_set_feed f1 f2 w : set_feed f2 (set_feed f1 w) = set_feed f2 w.
Proof. reflexivity. Qed.

Lemma set_feed_as_advance f w : set_feed f w = advance f [] w.
Proof. unfold advance, set_feed. by rewrite app_nil_r. Qed.

Lemma add_log_as_advance evs w : add_log evs w = advance (feed w) evs w.
Proof. reflexivity. Qed.

Lemma reframe_same w : reframe (status w) [] w = w.
Proof. by destruct w. Qed.

Lemma Qlt_bool_true x y : Qlt_bool x y = true ↔ (x < y)%Q.
Proof.
  unfold Qlt_bool. rewrite negb_true_iff, <- not_true_iff_false, Qle_bool_iff.
  split; [apply Qnot_le_lt | apply Qlt_not_le].
Qed.

Lemma Qlt_bool_false x y : Qlt_bool x y = false ↔ (y <= x)%Q.
Proof. unfold Qlt_bool. by rewrite negb_false_iff, Qle_bool_iff. Qed.

Lemma bind_run {A B : Type} (m : M A) (k : A → M B) w :
  (x ← m; k x) w =
  match m w with
  | Done a w' => k a w'
  | Raised e w' => Raised e w'
  | Pending w' => Pending w'
  end.
Proof. reflexivity. Qed.

(** ** Sequencing *)

Lemma seq_done {A B : Type} (o : outcome A) (k : A → World → outcome B) b w' :
  match o with
  | Done a w1 => k a w1
  | Raised e w1 => Raised e w1
  | Pending w1 => Pending w1
  end = Done b w' ↔
  ∃ a w1, o = Done a w1 ∧ k a w1 = Done b w'.
Proof.
  destruct o; (split; [intros Hk|intros (a' & w1 & Ho & Hk)]); try done.
  - by eexists _, _.
  - by injection Ho as -> ->.
Qed.

Lemma seq_blocked {A B : Type} (o : outcome A) (k : A → World → outcome B) w' :
  o = Pending w' →
  match o with
  | Done a w1 => k a w1
  | Raised e w1 => Raised e w1
  | Pending w1 => Pending w1
  end = Pending w'.
Proof. by intros ->. Qed.

(** ** Loops *)

(** More rounds than the feed has snapshots change nothing: the result of
    a loop is never an artefact of the bound on its rounds. *)
Lemma loop_rounds_enough step :
  consuming step →
  ∀ n m w, length (feed w) < n → length (feed w) < m →
    loop_rounds n step w = loop_rounds m step w.
Proof.
  intros Hc n. induction n as [|n IH]; intros m w Hn Hm; [lia|].
  destruct m as [|m]; [lia|]. cbn.
  destruct (step w) as [[] w'| |] eqn:Hs; try reflexivity.
  apply Hc in Hs. apply IH; lia.
Qed.

Lemma loop_unfold step w :
  consuming step →
  loop step w =
  match step w with
  | Done true w' => loop step w'
  | Done false w' => Done tt w'
  | Raised e w' => Raised e w'
  | Pending w' => Pending w'
  end.
Proof.
  intros Hc. unfold loop. change (loop_rounds (S ?n) step w) with
    (match step w with
     | Done true w' => loop_rounds n step w'
     | Done false w' => Done tt w'
     | Raised e w' => Raised e w'
     | Pending w' => Pending w'
     end).
  destruct (step w) as [[] w'| |] eqn:Hs; try reflexivity.
  apply Hc in Hs. apply loop_rounds_enough; [done|lia..].
Qed.

(** *** Polling loops whose iteration reads the vehicle once *)

Section poll_once.
Variables (step : M bool) (cfg : pyval).
Variables (test : Snapshot → bool) (ev : Snapshot → list Event).
Hypothesis step_run : ∀ w, configs w = cfg →
  step w = match feed w with
           | [] => Pending w
           | s :: f => if test s then Done true (advance f (ev s) w)
                       else Done false (advance f [] w)
           end.

Lemma poll_once_run pre : ∀ n w s rest,
  configs w = cfg → Forall (λ s, test s = true) pre → test s = false →
  feed w = pre ++ s :: rest → length pre < n →
  loop_rounds n step w = Done tt (advance rest (concat (map ev pre)) w).
Proof.
  induction pre as [|p pre IH]; intros n w s rest Hcfg Hpre Hs Hfeed Hn;
    (destruct n as [|n]; [cbn in Hn; lia|]); cbn;
    rewrite step_run, Hfeed by done; cbn.
  - by rewrite Hs.
  - inversion_clear Hpre as [|?? Hp Hpre']. rewrite Hp.
    rewrite (IH n _ s rest); [|done..|cbn in Hn; lia].
    by rewrite advance_advance.
Qed.

Lemma poll_once_inv n : ∀ w w',
  configs w = cfg → loop_rounds n step w = Done tt w' →
  ∃ pre s rest, feed w = pre ++ s :: rest ∧
                Forall (λ s, test s = true) pre ∧ test s = false ∧
                w' = advance rest (concat (map ev pre)) w.
Proof.
  induction n as [|n IH]; intros w w' Hcfg; cbn; [done|].
  rewrite step_run by done. destruct (feed w) as [|s f] eqn:Hfeed; [done|].
  destruct (test s) eqn:Hs.
  - intros Hl.
    apply IH in Hl as (pre & s' & rest & Hf & Hpre & Hs' & ->); [|done].
    exists (s :: pre), s', rest. cbn in Hf. rewrite Hf.
    split_and!; [done| |done|].
    + by constructor.
    + by rewrite advance_advance.
  - intros [= <-]. exists [], s, f. by split_and!.
Qed.

Lemma poll_once_blocked f : ∀ n w,
  configs w = cfg → Forall (λ s, test s = true) f → feed w = f →
  length f < n →
  loop_rounds n step w = Pending (advance [] (concat (map ev f)) w).
Proof.
  induction f as [|p f IH]; intros n w Hcfg Hf Hfeed Hn;
    (destruct n as [|n]; [cbn in Hn; lia|]); cbn;
    rewrite step_run, Hfeed by done; cbn.
  - by rewrite <- Hfeed, <- set_feed_as_advance; destruct w.
  - inversion_clear Hf as [|?? Hp Hf']. rewrite Hp.
    rewrite IH; [|done..|cbn in Hn; lia]. by rewrite advance_advance.
Qed.

Lemma poll_once_loop w w' :
  configs w = cfg →
  loop step w = Done tt w' ↔
  ∃ pre s rest, feed w = pre ++ s :: rest ∧
                Forall (λ s, test s = true) pre ∧ test s = false ∧
                w' = advance rest (concat (map ev pre)) w.
Proof.
  intros Hcfg. split; [by apply poll_once_inv|].
  intros (pre & s & rest & Hfeed & Hpre & Hs & ->).
  apply (poll_once_run pre _ w s rest); [done..|].
  rewrite Hfeed, length_app. lia.
Qed.
End poll_once.

(** *** Polling loops whose body reads the vehicle once more *)

Lemma rounds_feed_length rounds : length (rounds_feed rounds) = 2 * length rounds.
Proof.
  induction rounds as [|r rounds IH]; cbn; [done|].
  unfold rounds_feed in IH. lia.
Qed.

Section poll_twice.
Variables (step : M bool) (cfg : pyval).
Variables (test : Snapshot → bool) (ev : Snapshot → list Event).
Hypothesis step_run : ∀ w, configs w = cfg →
  step w = match feed w with
           | [] => Pending w
           | s :: f =>
               if test s then
                 match f with
                 | [] => Pending (advance [] [] w)
                 | s2 :: f' => Done true (advance f' (ev s2) w)
                 end
               else Done false (advance f [] w)
           end.

Lemma poll_twice_run rounds : ∀ n w s rest,
  configs w = cfg → Forall (λ r, test r.1 = true) rounds → test s = false →
  feed w = rounds_feed rounds ++ s :: rest → length rounds < n →
  loop_rounds n step w =
  Done tt (advance rest (concat (map (λ r, ev r.2) rounds)) w).
Proof.
  induction rounds as [|r rounds IH]; intros n w s rest Hcfg Hr Hs Hfeed Hn;
    (destruct n as [|n]; [cbn in Hn; lia|]); cbn;
    rewrite step_run, Hfeed by done; cbn.
  - by rewrite Hs.
  - inversion_clear Hr as [|?? Hr1 Hr']. rewrite Hr1.
    rewrite (IH n _ s rest); [|done..|cbn in Hn; lia].
    by rewrite advance_advance.
Qed.

Lemma poll_twice_inv n : ∀ w w',
  configs w = cfg → loop_rounds n step w = Done tt w' →
  ∃ rounds s rest, feed w = rounds_feed rounds ++ s :: rest ∧
                   Forall (λ r, test r.1 = true) rounds ∧ test s = false ∧
                   w' = advance rest (concat (map (λ r, ev r.2) rounds)) w.
Proof.
  induction n as [|n IH]; intros w w' Hcfg; cbn; [done|].
  rewrite step_run by done. destruct (feed w) as [|s f] eqn:Hfeed; [done|].
  destruct (test s) eqn:Hs.
  - destruct f as [|s2 f]; [done|].
    intros Hl.
    apply IH in Hl as (rounds & s' & rest & Hf & Hr & Hs' & ->); [|done].
    exists ((s, s2) :: rounds), s', rest. cbn in Hf. cbn. rewrite Hf.
    split_and!; [done| |done|].
    + by constructor.
    + by rewrite advance_advance.
  - intros [= <-]. exists [], s, f. by split_and!.
Qed.

Lemma poll_twice_loop w w' :
  configs w = cfg →
  loop step w = Done tt w' ↔
  ∃ rounds s rest, feed w = rounds_feed rounds ++ s :: rest ∧
                   Forall (λ r, test r.1 = true) rounds ∧ test s = false ∧
                   w' = advance rest (concat (map (λ r, ev r.2) rounds)) w.
Proof.
  intros Hcfg. split; [by apply poll_twice_inv|].
  intros (rounds & s & rest & Hfeed & Hr & Hs & ->).
  apply (poll_twice_run rounds _ w s rest); [done..|].
  rewrite Hfeed, length_app, rounds_feed_length. lia.
Qed.
End poll_twice.

(** ** The loops of the maneuvers, one round at a time *)

Ltac same_world :=
  unfold sleep, print, print_num, emit, mret, M_ret, advance, add_log, set_feed;
  cbn;
  rewrite ?app_nil_r, <- ?app_assoc; reflexivity.

Lemma report_rounds msg (value : Snapshot → Q) (rounds : list (Snapshot * Snapshot)) :
  concat (map (λ r, [EPrint msg (Some (value r.2)); ESleep 1]) rounds) =
  reports msg (map (λ r, value r.2) rounds).
Proof. unfold reports. by rewrite map_map. Qed.

Lemma report_polls msg (value : Snapshot → Q) (pre : list Snapshot) :
  concat (map (λ s, [EPrint msg (Some (value s)); ESleep 1]) pre) =
  reports msg (map value pre).
Proof. unfold reports. by rewrite map_map. Qed.

Lemma concat_map_const {A B : Type} (x : list B) (l : list A) :
  concat (map (λ _, x) l) = concat (replicate (length l) x).
Proof. induction l as [|a l IH]; cbn; [done|by rewrite IH]. Qed.

Lemma config_run key v w :
  py_getitem (configs w) key = Value v → config key w = Done v w.
Proof. intros Hv. unfold config, gets, mbind, M_bind. by rewrite Hv. Qed.

Lemma read_run {A : Type} (attr : Snapshot → A) w s f :
  feed w = s :: f → read attr w = Done (attr s) (set_feed f w).
Proof. intros Hfeed. unfold read. by rewrite Hfeed. Qed.

Lemma wait_step_run (attr : Snapshot → bool) msg w :
  (b ← (x ← read attr; mret (negb x));
   if b : bool then (print msg;; sleep 1);; mret true else mret false) w =
  match feed w with
  | [] => Pending w
  | s :: f => if negb (attr s)
              then Done true (advance f [EPrint msg None; ESleep 1] w)
              else Done false (advance f [] w)
  end.
Proof.
  unfold mbind, M_bind, read. destruct (feed w) as [|s f]; [done|]. cbn.
  destruct (attr s); cbn; f_equal; same_world.
Qed.

Lemma land_step_run w :
  (b ← (a ← read rel_alt; mret (Qlt_bool 0 a));
   if b : bool
   then (a ← read rel_alt; print_num "Altitude: " a;; sleep 1);; mret true
   else mret false) w =
  match feed w with
  | [] => Pending w
  | s :: f =>
      if Qlt_bool 0 (rel_alt s) then
        match f with
        | [] => Pending (advance [] [] w)
        | s2 :: f' =>
            Done true
              (advance f' [EPrint "Altitude: " (Some (rel_alt s2)); ESleep 1] w)
        end
      else Done false (advance f [] w)
  end.
Proof.
  unfold mbind, M_bind, read. destruct (feed w) as [|s f]; [done|]. cbn.
  destruct (Qlt_bool 0 (rel_alt s)); cbn; [|f_equal; same_world].
  destruct f as [|s2 f]; cbn; f_equal; same_world.
Qed.


Lemma go_to_step_run `{Externals} point tolerance tol cfg w :
  configs w = cfg →
  py_getitem cfg "waypoint_tolerance" = Value tolerance →
  as_number tolerance = Some tol →
  (here ← read global_relative_frame;
   let distance := get_distance_metres here point in
   tolerance ← config "waypoint_tolerance";
   far ← lift (py_float_gt distance tolerance);
   if far : bool
   then print_num "Distance remaining:" distance;; sleep 1;; mret true
   else mret false) w =
  match feed w with
  | [] => Pending w
  | s :: f =>
      let distance := get_distance_metres (global_relative_frame s) point in
      if Qlt_bool tol distance
      then Done true
             (advance f [EPrint "Distance remaining:" (Some distance); ESleep 1] w)
      else Done false (advance f [] w)
  end.
Proof.
  intros <- Hcfg Hnum. unfold config, gets, mbind, M_bind, read.
  destruct (feed w) as [|s f]; [done|]. cbn. rewrite Hcfg. cbn.
  unfold py_float_gt. rewrite Hnum. cbn.
  destruct (Qlt_bool _ _); cbn; f_equal; same_world.
Qed.

(** ** The maneuvers *)

Ltac run :=
  repeat first
    [ rewrite bind_run
    | progress cbn -[loop mbind takeoff land go_to set_altitude] ].
Tactic Notation "run" "in" hyp(H) :=
  repeat first
    [ rewrite bind_run in H
    | progress cbn -[loop mbind takeoff land go_to set_altitude] in H ].

(** Equal worlds after runs of any length: the updates are merged from
    the inside out, then the logs are compared. *)
Ltac merge_world :=
  run;
  unfold sleep, print, print_num, emit, mret, M_ret;
  repeat first
    [ rewrite add_log_add_log | rewrite advance_add_log
    | rewrite add_log_advance | rewrite advance_advance
    | rewrite set_feed_add_log | rewrite add_log_set_feed
    | rewrite set_feed_advance | rewrite advance_set_feed
    | rewrite set_feed_set_feed ];
  repeat f_equal; cbn [app]; rewrite <- ?app_assoc; reflexivity.



(** The threshold is the double that the product rounds to.  For an
    altitude of 3 it lies below 2.85, and a reading of that very double
    ends the wait; an [int] too large for a double cannot be multiplied by
    0.95, and the first test of the altitude raises. *)
Example takeoff_threshold_is_rounded :
  py_mul_float (PInt 3) (95 # 100) =
    Value (S754_finite false 6417629469002956 (-51)) ∧
  (6417629469002956 # 2251799813685248 < 3 * (95 # 100))%Q ∧
  takeoff (fresh sample_coms (PDict (<["altitude" := PInt 3]> ∅))
             [snap true true 0; snap true true 0;
              snap true true (6417629469002956 # 2251799813685248);
              snap true true 3]) =
  Done tt
    (advance [snap true true 3]
       [EPrint "Pre-arm checks" None; EPrint "Arming motors" None;
        ESetMode "GUIDED"; ESetArmed true; EPrint "Taking off" None;
        ESimpleTakeoff (PInt 3); EPrint "Reached target altitude" None]
       (fresh sample_coms (PDict (<["altitude" := PInt 3]> ∅))
          [snap true true 0; snap true true 0;
           snap true true (6417629469002956 # 2251799813685248);
           snap true true 3])) ∧
  py_mul_float (PInt (10 ^ 400)) (95 # 100) = Error OverflowError ∧
  takeoff (fresh sample_coms (PDict (<["altitude" := PInt (10 ^ 400)]> ∅))
             [snap true true 0; snap true true 0; snap true true 3]) =
  Raised OverflowError
    (advance []
       [EPrint "Pre-arm checks" None; EPrint "Arming motors" None;
        ESetMode "GUIDED"; ESetArmed true; EPrint "Taking off" None;
        ESimpleTakeoff (PInt (10 ^ 400))]
       (fresh sample_coms (PDict (<["altitude" := PInt (10 ^ 400)]> ∅))
          [snap true true 0; snap true true 0; snap true true 3])).
Proof.
  split_and!;
    [vm_compute; reflexivity|reflexivity|reflexivity
    |vm_compute; reflexivity|reflexivity].
Qed.

(** C2.  With an air speed and a numeric waypoint tolerance configured,
    [go_to] issues one navigation request, to the given point at the
    configured air speed, before it polls; it completes exactly when the
    feed holds readings farther than the tolerance up to a first reading
    within it, and that reading is the last one it takes.  While every
    reading of the feed is farther than the tolerance it is still polling
    (and has issued that one request). *)
Theorem go_to_spec `{Externals} point speed tolerance tol w :
  py_getitem (configs w) "air_speed" = Value speed →
  py_getitem (configs w) "waypoint_tolerance" = Value tolerance →
  as_number tolerance = Some tol →
  let distance s := get_distance_metres (global_relative_frame s) point in
  (∀ w',
     go_to point w = Done tt w' ↔
     ∃ pre s rest,
       feed w = pre ++ s :: rest ∧
       Forall (λ r, (tol < distance r)%Q) pre ∧
       (distance s <= tol)%Q ∧
       w' = advance rest
              ([ESimpleGoto point speed] ++
               reports "Distance remaining:" (map distance pre) ++
               [EPrint "Target reached" None]) w) ∧
  (Forall (λ r, (tol < distance r)%Q) (feed w) →
   go_to point w =
   Pending (advance []
              ([ESimpleGoto point speed] ++
               reports "Distance remaining:" (map distance (feed w))) w)).
Proof.
  intros Hspeed Htol Hnum distance.
  pose proof (λ x Hx, go_to_step_run point _ _ (configs w) x Hx Htol Hnum)
    as Hstep.
  split; [intros w'|intros Hfar]; unfold go_to; run;
    rewrite (config_run _ _ _ Hspeed); run.
  - rewrite seq_done. split.
    + intros ([] & w1 & Hl & [= <-]).
      apply (poll_once_loop _ _ _ _ Hstep) in Hl
        as (pre & s & rest & Hfeed & Hpre & Hs & ->); [|done].
      exists pre, s, rest. split_and!; [done| | |].
      * eapply Forall_impl; [exact Hpre|]. intros r. apply Qlt_bool_true.
      * by apply Qlt_bool_false.
      * cbn. rewrite report_polls. merge_world.
    + intros (pre & s & rest & Hfeed & Hpre & Hs & ->). eexists tt, _. split.
      * apply (poll_once_loop _ _ _ _ Hstep); [done|].
        exists pre, s, rest. split_and!; [done| | |done].
        -- eapply Forall_impl; [exact Hpre|]. intros r. apply Qlt_bool_true.
        -- by apply Qlt_bool_false.
      * cbn. rewrite report_polls. merge_world.
  - etrans.
    + apply seq_blocked.
      apply (poll_once_blocked _ _ _ _ Hstep (feed w)); [done| |done|cbn; lia].
      eapply Forall_impl; [exact Hfar|]. intros r. apply Qlt_bool_true.
    + cbn. rewrite report_polls. merge_world.
Qed.

(** The scenario of the spec: tolerance 2 and distances 50, 10, 3, 1; the
    maneuver ends on the reading at 1 and leaves the next one unread. *)
Lemma go_to_spec_sample :
  py_getitem sample_configs "air_speed" = Value (PInt 5) ∧
  py_getitem sample_configs "waypoint_tolerance" = Value (PInt 2) ∧
  as_number (PInt 2) = Some (inject_Z 2) ∧
  @go_to sample_externals ground_point
    (fresh sample_coms sample_configs goto_feed) =
  Done tt
    (advance [snap true true 0]
       [ESimpleGoto ground_point (PInt 5);
        EPrint "Distance remaining:" (Some 50%Q); ESleep 1;
        EPrint "Distance remaining:" (Some 10%Q); ESleep 1;
        EPrint "Distance remaining:" (Some 3%Q); ESleep 1;
        EPrint "Target reached" None]
       (fresh sample_coms sample_configs goto_feed)).
Proof.
  split; [reflexivity|]. split; [reflexivity|]. split; [reflexivity|].
  apply (proj1 (@go_to_spec sample_externals ground_point (PInt 5) (PInt 2)
                  (inject_Z 2) (fresh sample_coms sample_configs goto_feed)
                  eq_refl eq_refl eq_refl)).
  exists [snap true true 50; snap true true 10; snap true true 3],
    (snap true true 1), [snap true true 0].
  split; [reflexivity|]. split; [repeat constructor|].
  split; [discriminate|reflexivity].
Defined.

(** C3.  [land] first switches the autopilot to the landing mode, then
    polls the altitude; it completes exactly when the feed holds rounds
    whose polled altitude is above 0 up to a first poll at or below 0, and
    then the five-second pause follows whatever the altitudes were, also
    when the very first poll is at or below 0. *)
Theorem land_spec w w' :
  land w = Done tt w' ↔
  ∃ rounds s rest,
    feed w = rounds_feed rounds ++ s :: rest ∧
    Forall (λ r, (0 < rel_alt r.1)%Q) rounds ∧
    (rel_alt s <= 0)%Q ∧
    w' = advance rest
           ([ESetMode (land_mode w); EPrint "Landing..." None] ++
            reports "Altitude: " (map (λ r, rel_alt r.2) rounds) ++
            [EPrint "Landed" None; EPrint "Sleeping..." None; ESleep 5]) w.
Proof.
  unfold land, while. run. rewrite seq_done.
  pose proof (λ v v', poll_twice_loop _ (configs w) _ _
                        (λ x _, land_step_run x) v v') as Hloop.
  split.
  - intros ([] & w1 & Hl & [= <-]).
    apply Hloop in Hl as (rounds & s & rest & Hfeed & Hr & Hs & ->); [|done].
    exists rounds, s, rest. split_and!; [done| | |].
    + eapply Forall_impl; [exact Hr|]. intros r. apply Qlt_bool_true.
    + by apply Qlt_bool_false.
    + cbn. rewrite report_rounds. merge_world.
  - intros (rounds & s & rest & Hfeed & Hr & Hs & ->). eexists tt, _. split.
    + apply Hloop; [done|]. exists rounds, s, rest. split_and!; [done| | |done].
      * eapply Forall_impl; [exact Hr|]. intros r. apply Qlt_bool_true.
      * by apply Qlt_bool_false.
    + cbn. rewrite report_rounds. merge_world.
Qed.

(** A vehicle already on the ground: no round of the loop, and the pause. *)
Lemma land_on_the_ground :
  land (fresh sample_coms sample_configs [snap true true 0]) =
  Done tt
    (advance []
       [ESetMode "LAND"; EPrint "Landing..." None; EPrint "Landed" None;
        EPrint "Sleeping..." None; ESleep 5]
       (fresh sample_coms sample_configs [snap true true 0])).
Proof.
  apply land_spec. exists [], (snap true true 0), [].
  split; [reflexivity|]. split; [constructor|]. split; [discriminate|reflexivity].
Defined.

(** ** Status changes and command dispatch *)

Lemma py_in_spec v tuple :
  py_in v tuple = true ↔ ∃ s, In s tuple ∧ v = PStr s.
Proof.
  unfold py_in. rewrite existsb_exists. split.
  - intros (s & Hin & Heq). exists s. split; [done|].
    destruct v; try done. cbn in Heq. apply String.eqb_eq in Heq. by subst.
  - intros (s & Hin & ->). exists s. split; [done|]. cbn. apply String.eqb_refl.
Qed.





(** C10.  A [go_to] command whose body lacks one of the keys ["Lat"],
    ["Lon"], ["Alt"], and a [set_altitude] command whose body lacks
    ["Alt"], end in a [KeyError] for one of these keys while the arguments
    of the maneuver are decoded: no navigation request has been issued and
    the vehicle (its status included) is as it was. *)
Theorem malformed_body_raises `{Externals} command body w :
  py_getitem command "Body" = Value (PDict body) →
  (py_getitem command "Type" = Value (PStr "go_to") ∧
   (body !! "Lat" = None ∨ body !! "Lon" = None ∨ body !! "Alt" = None)) ∨
  (py_getitem command "Type" = Value (PStr "set_altitude") ∧
   body !! "Alt" = None) →
  ∃ key, In key ["Lat"; "Lon"; "Alt"] ∧
         coms_callback command w = Raised (KeyError key) w.
Proof.
  intros Hbody Hcases.
  assert (Hraise : ∀ key, In key ["Lat"; "Lon"; "Alt"] →
            coms_callback command w = Raised (KeyError key) w →
            ∃ key, In key ["Lat"; "Lon"; "Alt"] ∧
                   coms_callback command w = Raised (KeyError key) w)
    by (intros key Hin Hrun; by exists key).
  destruct Hcases as [[Hty Hmiss]|[Hty Hmiss]].
  - destruct (body !! "Lat") as [x|] eqn:Hlat;
      [destruct (body !! "Lon") as [y|] eqn:Hlon;
         [destruct (body !! "Alt") as [z|] eqn:Halt|]|].
    + by destruct Hmiss as [?|[?|?]].
    + apply (Hraise "Alt"); [cbn; tauto|]. unfold coms_callback.
      repeat (run; rewrite ?Hty, ?Hbody, ?Hlat, ?Hlon, ?Halt). done.
    + apply (Hraise "Lon"); [cbn; tauto|]. unfold coms_callback.
      repeat (run; rewrite ?Hty, ?Hbody, ?Hlat, ?Hlon). done.
    + apply (Hraise "Lat"); [cbn; tauto|]. unfold coms_callback.
      repeat (run; rewrite ?Hty, ?Hbody, ?Hlat). done.
  - apply (Hraise "Alt"); [cbn; tauto|]. unfold coms_callback.
    repeat (run; rewrite ?Hty, ?Hbody, ?Hmiss). done.
Qed.

Lemma malformed_body_raises_sample :
  ∃ key, In key ["Lat"; "Lon"; "Alt"] ∧
    @coms_callback sample_externals goto_command_without_lat
      (fresh sample_coms sample_configs goto_feed) =
    Raised (KeyError key) (fresh sample_coms sample_configs goto_feed).
Proof.
  apply (@malformed_body_raises sample_externals goto_command_without_lat
           (<["Lon" := PInt 1]> (<["Alt" := PInt 0]> ∅))); [reflexivity|].
  left. split; [reflexivity|]. left. reflexivity.
Defined.

(** ** Maneuvers do not look at the status or at the earlier log *)

#[global] Instance framed_ret {A : Type} (a : A) : Framed (mret a).
Proof. done. Qed.

#[global] Instance framed_raise {A : Type} (e : exn) : Framed (@raise A e).
Proof. done. Qed.

#[global] Instance framed_lift {A : Type} (r : pyresult A) : Framed (lift r).
Proof. by destruct r. Qed.

#[global] Instance framed_bind {A B : Type} (m : M A) (k : A → M B) :
  Framed m → (∀ a, Framed (k a)) → Framed (x ← m; k x).
Proof.
  intros Hm Hk st l w. rewrite !bind_run, Hm.
  destruct (m w) as [a w1| |]; cbn; [apply Hk|done..].
Qed.

#[global] Instance framed_if {A : Type} (b : bool) (m1 m2 : M A) :
  Framed m1 → Framed m2 → Framed (if b then m1 else m2).
Proof. by destruct b. Qed.

#[global] Instance framed_emit e : Framed (emit e).
Proof.
  intros st l w. unfold emit, reframe, add_log; cbn. by rewrite app_assoc.
Qed.

#[global] Instance framed_print msg : Framed (print msg).
Proof. apply framed_emit. Qed.

#[global] Instance framed_print_num msg x : Framed (print_num msg x).
Proof. apply framed_emit. Qed.

#[global] Instance framed_sleep n : Framed (sleep n).
Proof. apply framed_emit. Qed.

#[global] Instance framed_read {A : Type} (attr : Snapshot → A) : Framed (read attr).
Proof. intros st l w. unfold read; cbn. by destruct (feed w). Qed.

#[global] Instance framed_config key : Framed (config key).
Proof.
  intros st l w. unfold config, gets. rewrite !bind_run; cbn.
  by destruct (py_getitem (configs w) key).
Qed.

#[global] Instance framed_land_mode : Framed (gets land_mode).
Proof. done. Qed.

Lemma framed_loop_rounds n step :
  Framed step →
  ∀ st l w, loop_rounds n step (reframe st l w) =
            on_world (reframe st l) (loop_rounds n step w).
Proof.
  intros Hstep. induction n as [|n IH]; intros st l w; cbn; [done|].
  rewrite Hstep. destruct (step w) as [[] w1| |]; cbn; [apply IH|done..].
Qed.

#[global] Instance framed_loop step : Framed step → Framed (loop step).
Proof. intros Hstep st l w. unfold loop. by rewrite framed_loop_rounds. Qed.

#[global] Instance framed_while cond body :
  Framed cond → Framed body → Framed (while cond body).
Proof. intros. unfold while. apply _. Qed.

#[global] Instance framed_takeoff : Framed takeoff.
Proof. unfold takeoff. apply _. Qed.

#[global] Instance framed_land : Framed land.
Proof. unfold land. apply _. Qed.

#[global] Instance framed_go_to `{Externals} point : Framed (go_to point).
Proof. unfold go_to. apply _. Qed.

#[global] Instance framed_set_altitude `{Externals} altitude :
  Framed (set_altitude altitude).
Proof. unfold set_altitude. apply _. Qed.

#[global] Instance framed_coms_callback `{Externals} command :
  Framed (coms_callback command).
Proof. unfold coms_callback. apply _. Qed.

Lemma framed_keeps_status {A : Type} (m : M A) `{!Framed m} w :
  status (world_of (m w)) = status w.
Proof.
  rewrite <- (reframe_same w) at 1. rewrite framed. by destruct (m w).
Qed.

Lemma framed_set_status {A : Type} (m : M A) `{!Framed m} st w :
  m (set_status st w) = on_world (set_status st) (m w).
Proof.
  change (set_status st w) with (reframe st [] w). rewrite framed.
  by destruct (m w).
Qed.

(** C5.  Dispatching a command never changes the status: whatever the
    command and however its maneuver ends (completed, raised, or still
    blocked), the status afterwards is the status before.  Only
    [change_status] writes the field, and no maneuver calls it. *)
Theorem dispatch_keeps_status `{Externals} command w :
  status (world_of (coms_callback command w)) = status w.
Proof.
  pose proof (framed_coms_callback command) as Hframed.
  exact (framed_keeps_status (coms_callback command) w).
Qed.

(** C7, as the code has it.  The dispatcher starts the takeoff maneuver for
    a takeoff command under every status: the run is the run of [takeoff],
    and it is the same run whatever the status is. *)
Theorem takeoff_command_any_status `{Externals} command st w :
  py_getitem command "Type" = Value (PStr "takeoff") →
  coms_callback command (set_status st w) = on_world (set_status st) (takeoff w).
Proof.
  intros Hty. rewrite <- (framed_set_status takeoff).
  unfold coms_callback. run. rewrite Hty. by run.
Qed.

Lemma takeoff_command_any_status_sample :
  py_getitem takeoff_command "Type" = Value (PStr "takeoff") ∧
  @coms_callback sample_externals takeoff_command
    (set_status (PStr "paused") (fresh sample_coms sample_configs takeoff_feed)) =
  on_world (set_status (PStr "paused"))
    (takeoff (fresh sample_coms sample_configs takeoff_feed)).
Proof.
  split; [reflexivity|].
  exact (@takeoff_command_any_status sample_externals takeoff_command
           (PStr "paused") (fresh sample_coms sample_configs takeoff_feed)
           eq_refl).
Defined.

(** C7 as stated fails: in status ["error"] a takeoff command arms the
    vehicle and commands the climb. *)
Lemma takeoff_started_when_not_ready :
  status (set_status (PStr "error")
            (fresh sample_coms sample_configs takeoff_feed)) = PStr "error" ∧
  autopilot_calls
    (log (world_of
            (@coms_callback sample_externals takeoff_command
               (set_status (PStr "error")
                  (fresh sample_coms sample_configs takeoff_feed))))) =
  [ESetMode "GUIDED"; ESetArmed true; ESimpleTakeoff (PInt 10)].
Proof. split; reflexivity. Qed.

Lemma autopilot_calls_app l1 l2 :
  autopilot_calls (l1 ++ l2) = autopilot_calls l1 ++ autopilot_calls l2.
Proof. apply List.filter_app. Qed.

(** C8.  [set_altitude] is [go_to] applied to the point made of the
    latitude and the longitude read at invocation (its first two reads of
    the vehicle) and of the requested altitude: as the autopilot sees them
    the two runs are the same, with the same request, the same polling of
    the rest of the feed, the same end and no further call. *)
Theorem set_altitude_is_go_to `{Externals} altitude w s1 s2 rest :
  feed w = s1 :: s2 :: rest →
  autopilot_view (set_altitude altitude w) =
  autopilot_view
    (go_to {| lat := PFloat (pos_lat s1); lon := PFloat (pos_lon s2);
              alt := altitude |}
       (set_feed rest w)).
Proof.
  intros Hfeed. unfold set_altitude. run.
  rewrite (read_run _ _ s1 (s2 :: rest)) by exact Hfeed. run.

  set (point := {| lat := _; lon := _; alt := altitude |}).
  set (base := {| status := status w; configs := configs w;
                  land_mode := land_mode w; coms := coms w;
                  feed := rest; log := [] |}).
  replace (set_feed rest (set_feed (s2 :: rest) (add_log _ w)))
    with (reframe (status w) (log w ++ [EPrint "Setting altitude:" None]) base)
    by (unfold reframe, set_feed, add_log; cbn; by rewrite app_nil_r).
  replace (set_feed rest w) with (reframe (status w) (log w) base)
    by (unfold reframe, set_feed; cbn; by rewrite app_nil_r).
  rewrite !(framed (m := go_to point)).
  destruct (go_to point base) as [[] b|e b|b];
    unfold autopilot_view, print, emit, on_world, calls_only, reframe, add_log;
    cbn -[autopilot_calls];
    rewrite !autopilot_calls_app; cbn; by rewrite ?app_nil_r.
Qed.

Lemma set_altitude_is_go_to_sample :
  feed (fresh sample_coms sample_configs goto_feed) =
  snap true true 50 :: snap true true 10 ::
    [snap true true 3; snap true true 1; snap true true 0] ∧
  autopilot_view
    (@set_altitude sample_externals (PInt 0)
       (fresh sample_coms sample_configs goto_feed)) =
  autopilot_view
    (@go_to sample_externals
       {| lat := PFloat (pos_lat (snap true true 50));
          lon := PFloat (pos_lon (snap true true 10)); alt := PInt 0 |}
       (set_feed [snap true true 3; snap true true 1; snap true true 0]
          (fresh sample_coms sample_configs goto_feed))).
Proof.
  split; [reflexivity|].
  exact (@set_altitude_is_go_to sample_externals (PInt 0)
           (fresh sample_coms sample_configs goto_feed)
           (snap true true 50) (snap true true 10)
           [snap true true 3; snap true true 1; snap true true 0] eq_refl).
Defined.

(** ** Relations that every step of a computation respects *)

Section respects.
Context (R : relation World) `{!PreOrder R}.

Lemma respects_ret {A : Type} (a : A) : Respects R (mret a).
Proof. intros w. reflexivity. Qed.

Lemma respects_raise {A : Type} (e : exn) : Respects R (@raise A e).
Proof. intros w. reflexivity. Qed.

Lemma respects_lift {A : Type} (r : pyresult A) : Respects R (lift r).
Proof. destruct r; [apply respects_ret|apply respects_raise]. Qed.

Lemma respects_gets {A : Type} (f : World → A) : Respects R (gets f).
Proof. intros w. reflexivity. Qed.

Lemma respects_config key : Respects R (config key).
Proof.
  intros w. unfold config, gets. rewrite bind_run.
  destruct (py_getitem (configs w) key); reflexivity.
Qed.

Lemma respects_bind {A B : Type} (m : M A) (k : A → M B) :
  Respects R m → (∀ a, Respects R (k a)) → Respects R (x ← m; k x).
Proof.
  intros Hm Hk w. rewrite bind_run. specialize (Hm w).
  destruct (m w) as [a w1| |]; cbn in *; [|done..].
  etrans; [exact Hm|apply Hk].
Qed.

Lemma respects_loop_rounds n step :
  Respects R step → Respects R (loop_rounds n step).
Proof.
  intros Hstep. induction n as [|n IH]; intros w; cbn; [reflexivity|].
  specialize (Hstep w). destruct (step w) as [[] w1| |]; cbn in *; [|done..].
  etrans; [exact Hstep|apply IH].
Qed.

Lemma respects_loop step : Respects R step → Respects R (loop step).
Proof. intros Hstep w. by apply respects_loop_rounds. Qed.

Lemma respects_while cond body :
  Respects R cond → Respects R body → Respects R (while cond body).
Proof.
  intros Hcond Hbody. apply respects_loop, respects_bind; [done|].
  intros []; [|apply respects_ret].
  apply respects_bind; [done|]. intros _. apply respects_ret.
Qed.
End respects.

(** ** The bound on the rounds of a loop is never what stops it *)

#[global] Instance shrinks_preorder : PreOrder shrinks.
Proof. split; unfold shrinks; [intros w; lia|intros w1 w2 w3; lia]. Qed.

Lemma shrinks_read {A : Type} (attr : Snapshot → A) : Respects shrinks (read attr).
Proof.
  intros w. unfold read, shrinks.
  destruct (feed w) as [|s f] eqn:Hfeed; cbn; rewrite ?Hfeed; cbn; lia.
Qed.

Lemma shrinks_emit e : Respects shrinks (emit e).
Proof. intros w. unfold shrinks. cbn. lia. Qed.

(** A step that starts with a read of the vehicle has consumed a snapshot
    when it asks for another round. *)
Lemma read_first_consuming {A : Type} (attr : Snapshot → A) (k : A → M bool) :
  (∀ a, Respects shrinks (k a)) → consuming (x ← read attr; k x).
Proof.
  intros Hk w w' Hrun. rewrite bind_run in Hrun. unfold read in Hrun.
  destruct (feed w) as [|s f]; [done|].
  specialize (Hk (attr s) (set_feed f w)). rewrite Hrun in Hk.
  unfold shrinks in Hk. cbn in *. lia.
Qed.

(** Python's equation for [while cond: body], for a condition that starts
    with a read of the vehicle, as the condition of every [while] of
    [vtol.py] does. *)
Lemma while_unfold {A : Type} (attr : Snapshot → A) (k : A → M bool) body w :
  (∀ a, Respects shrinks (k a)) → Respects shrinks body →
  while (x ← read attr; k x) body w =
  match (x ← read attr; k x) w with
  | Done true w1 => (body;; while (x ← read attr; k x) body) w1
  | Done false w1 => Done tt w1
  | Raised e w1 => Raised e w1
  | Pending w1 => Pending w1
  end.
Proof.
  intros Hk Hbody. unfold while at 1. rewrite loop_unfold.
  - rewrite !bind_run.
    destruct (read attr w) as [a w1| |]; [|done..].
    destruct (k a w1) as [[] w2| |]; [|done..].
    rewrite !bind_run. by destruct (body w2) as [[] w3| |].
  - intros v v' Hrun. rewrite bind_run in Hrun.
    destruct ((x ← read attr; k x) v) as [[] v1| |] eqn:Hcond; [|done..].
    apply (read_first_consuming attr k Hk) in Hcond.
    rewrite bind_run in Hrun. pose proof (Hbody v1) as Hb.
    destruct (body v1) as [[] v2| |]; [|done..].
    injection Hrun as <-. unfold shrinks in Hb. cbn in Hb. lia.
Qed.

(** ** Telemetry *)

(** One round on the sample link: the clock reads 12, the link was set up
    at 3 and the station was then at 100, so the message is stamped 109;
    the thread ends by setting the status to ["ready"]. *)
Example update_thread_sample :
  sent_times
    (log (world_of (@update_thread sample_externals (PStr "gcs")
                      (fresh sample_coms sample_configs telemetry_feed)))) =
  [109%Q] ∧
  status (world_of (@update_thread sample_externals (PStr "gcs")
                      (set_status (PStr "running")
                         (fresh sample_coms sample_configs telemetry_feed)))) =
  PStr "ready".
Proof. split; reflexivity. Qed.

(** * Further properties of the controller *)

(** ** What a computation issues, in every outcome *)

Section issues.
Variables (sel : Event → bool) (cfg : pyval).

Lemma issues_still {A : Type} (m : M A) :
  (∀ w, world_of (m w) = w) → Issues sel cfg m [].
Proof.
  intros Hm w Hcfg. exists []. rewrite Hm, app_nil_r. by split_and!.
Qed.

Lemma issues_ret {A : Type} (a : A) : Issues sel cfg (mret a) [].
Proof. by apply issues_still. Qed.

Lemma issues_raise {A : Type} (e : exn) : Issues sel cfg (@raise A e) [].
Proof. by apply issues_still. Qed.

Lemma issues_lift {A : Type} (r : pyresult A) : Issues sel cfg (lift r) [].
Proof. destruct r; [apply issues_ret|apply issues_raise]. Qed.

Lemma issues_gets {A : Type} (f : World → A) : Issues sel cfg (gets f) [].
Proof. by apply issues_still. Qed.

Lemma issues_read {A : Type} (attr : Snapshot → A) : Issues sel cfg (read attr) [].
Proof.
  intros w Hcfg. exists []. unfold read.
  destruct (feed w); cbn; rewrite app_nil_r; by split_and!.
Qed.

Lemma issues_new_msg_id : Issues sel cfg new_msg_id [].
Proof. intros w Hcfg. exists []. cbn. rewrite app_nil_r. by split_and!. Qed.

Lemma issues_change_status v : Issues sel cfg (change_status v) [].
Proof.
  intros w Hcfg. exists []. unfold change_status.
  destruct (py_in v statuses); cbn; rewrite app_nil_r; by split_and!.
Qed.

Lemma issues_other e : sel e = false → Issues sel cfg (emit e) [].
Proof. intros He w Hcfg. exists [e]. cbn. rewrite He. by split_and!. Qed.

Lemma issues_one e : sel e = true → Issues sel cfg (emit e) [e].
Proof. intros He w Hcfg. exists [e]. cbn. rewrite He. by split_and!. Qed.

Lemma issues_bind {A B : Type} (m : M A) (k : A → M B) l1 l2 :
  Issues sel cfg m l1 → (∀ a, Issues sel cfg (k a) l2) →
  Issues sel cfg (x ← m; k x) (l1 ++ l2).
Proof.
  intros Hm Hk w Hcfg. rewrite bind_run.
  destruct (Hm w Hcfg) as (evs1 & Hlog1 & Hcfg1 & Hpre1 & Hdone1).
  destruct (m w) as [a w1| |] eqn:Hrun; cbn in *.
  - destruct (Hk a w1 Hcfg1) as (evs2 & Hlog2 & Hcfg2 & Hpre2 & Hdone2).
    exists (evs1 ++ evs2). rewrite List.filter_app, (Hdone1 a w1 eq_refl).
    split_and!.
    + by rewrite Hlog2, Hlog1, app_assoc.
    + done.
    + by apply prefix_app.
    + intros b w' Hb. by rewrite (Hdone2 b w' Hb).
  - exists evs1. split_and!; [done..| |done]. by apply prefix_app_r.
  - exists evs1. split_and!; [done..| |done]. by apply prefix_app_r.
Qed.

Lemma issues_then {A B : Type} (m : M A) (k : A → M B) l :
  Issues sel cfg m [] → (∀ a, Issues sel cfg (k a) l) →
  Issues sel cfg (x ← m; k x) l.
Proof. intros Hm Hk. by apply (issues_bind m k [] l). Qed.

Lemma issues_after {B : Type} e (k : M B) l :
  sel e = true → Issues sel cfg k l → Issues sel cfg (emit e;; k) (e :: l).
Proof.
  intros He Hk. apply (issues_bind (emit e) (λ _, k) [e] l); [|done].
  by apply issues_one.
Qed.

(** A value of the configuration may shape what follows its lookup; when
    the lookup fails nothing follows. *)
Lemma issues_config {B : Type} key (k : pyval → M B) l :
  (∀ a, py_getitem cfg key = Value a → Issues sel cfg (k a) l) →
  Issues sel cfg (a ← config key; k a) l.
Proof.
  intros Hk w Hcfg. rewrite bind_run. unfold config, gets. rewrite bind_run.
  rewrite Hcfg. destruct (py_getitem cfg key) as [a|e] eqn:Hkey; cbn.
  - by apply Hk.
  - exists []. rewrite app_nil_r. split_and!; [done..|apply prefix_nil|done].
Qed.

Lemma issues_if {A : Type} (b : bool) (m1 m2 : M A) l :
  Issues sel cfg m1 l → Issues sel cfg m2 l →
  Issues sel cfg (if b then m1 else m2) l.
Proof. by destruct b. Qed.

Lemma issues_loop_rounds n step :
  Issues sel cfg step [] → Issues sel cfg (loop_rounds n step) [].
Proof.
  intros Hstep. induction n as [|n IH]; intros w Hcfg; cbn.
  { exists []. rewrite app_nil_r. by split_and!. }
  destruct (Hstep w Hcfg) as (evs1 & Hlog1 & Hcfg1 & Hpre1 & Hdone1).
  destruct (step w) as [[] w1| |] eqn:Hrun; cbn in *;
    [|exists evs1; split_and!; [done..|intros; by apply prefix_nil_inv]..].
  destruct (IH w1 Hcfg1) as (evs2 & Hlog2 & Hcfg2 & Hpre2 & Hdone2).
  apply prefix_nil_inv in Hpre1, Hpre2.
  exists (evs1 ++ evs2). rewrite List.filter_app, Hpre1, Hpre2.
  split_and!; [|done..]. by rewrite Hlog2, Hlog1, app_assoc.
Qed.

Lemma issues_loop step : Issues sel cfg step [] → Issues sel cfg (loop step) [].
Proof. intros Hstep w. by apply issues_loop_rounds. Qed.

Lemma issues_while cond body :
  Issues sel cfg cond [] → Issues sel cfg body [] →
  Issues sel cfg (while cond body) [].
Proof.
  intros Hcond Hbody. apply issues_loop, issues_then; [done|].
  intros []; [|apply issues_ret]. apply issues_then; [done|].
  intros _. apply issues_ret.
Qed.
End issues.

(** The rules, applied along the text of a computation. *)
Ltac issues :=
  unfold print, print_num, sleep;
  repeat first
    [ apply issues_after; [reflexivity|]
    | apply issues_one; reflexivity
    | apply issues_other; reflexivity
    | apply issues_config;
      let a := fresh "a" in let Hkey := fresh "Hkey" in
      intros a Hkey; rewrite ?Hkey
    | apply issues_while | apply issues_loop | apply issues_if
    | apply issues_ret | apply issues_raise | apply issues_lift
    | apply issues_gets | apply issues_read | apply issues_new_msg_id
    | apply issues_change_status
    | apply issues_then; [|intro] ].

(** ** The maneuvers, in every outcome and at their edges *)

Lemma seq_next {A B : Type} (o : outcome A) (k : A → World → outcome B) a w1 r :
  o = Done a w1 → k a w1 = r →
  match o with
  | Done a w => k a w
  | Raised e w => Raised e w
  | Pending w => Pending w
  end = r.
Proof. by intros -> <-. Qed.

(** X1.  However [takeoff] ends (completed, raised, still waiting), the
    calls the autopilot has received from it are a prefix of: mode GUIDED,
    arm, climb to the configured altitude (the climb only when an altitude
    is configured).  So it never commands the climb before it has commanded
    arming, and it makes no other call; when it completes it has made all
    of them once. *)
Theorem takeoff_calls_in_order w :
  ∃ evs,
    log (world_of (takeoff w)) = log w ++ evs ∧
    autopilot_calls evs `prefix_of`
      [ESetMode "GUIDED"; ESetArmed true] ++
      match py_getitem (configs w) "altitude" with
      | Value altitude => [ESimpleTakeoff altitude]
      | Error _ => []
      end ∧
    (∀ w', takeoff w = Done tt w' →
       autopilot_calls evs =
       [ESetMode "GUIDED"; ESetArmed true] ++
       match py_getitem (configs w) "altitude" with
       | Value altitude => [ESimpleTakeoff altitude]
       | Error _ => []
       end).
Proof.
  assert (Hrules : Issues is_autopilot_call (configs w) takeoff
            ([ESetMode "GUIDED"; ESetArmed true] ++
             match py_getitem (configs w) "altitude" with
             | Value altitude => [ESimpleTakeoff altitude]
             | Error _ => []
             end)) by (unfold takeoff; issues).
  destruct (Hrules w eq_refl) as (evs & Hlog & _ & Hpre & Hdone).
  exists evs. split_and!; [done..|]. intros w'. apply Hdone.
Qed.

(** X2.  While no reading of the feed is armable, [takeoff] is still in its
    first wait: it has printed and slept once per reading and has made no
    call to the autopilot (no mode change, no arming, no climb). *)
Theorem takeoff_never_armable w :
  Forall (λ s, is_armable s = false) (feed w) →
  takeoff w =
  Pending (advance []
             ([EPrint "Pre-arm checks" None] ++
              waits "Waiting for vehicle to initialize" (length (feed w))) w).
Proof.
  intros Hnot. unfold takeoff, while. run. etrans.
  - apply seq_blocked.
    apply (poll_once_blocked _ (configs w) _ _
             (λ x _, wait_step_run is_armable _ x) (feed w));
      [done| |done|cbn; lia].
    eapply Forall_impl; [exact Hnot|]. intros s. apply negb_true_iff.
  - cbn. rewrite concat_map_const. merge_world.
Qed.

Lemma takeoff_never_armable_sample :
  Forall (λ s, is_armable s = false) [snap false false 0; snap false true 3] ∧
  takeoff (fresh sample_coms sample_configs
             [snap false false 0; snap false true 3]) =
  Pending
    (advance []
       [EPrint "Pre-arm checks" None;
        EPrint "Waiting for vehicle to initialize" None; ESleep 1;
        EPrint "Waiting for vehicle to initialize" None; ESleep 1]
       (fresh sample_coms sample_configs
          [snap false false 0; snap false true 3])).
Proof.
  split; [repeat constructor|].
  apply (takeoff_never_armable
           (fresh sample_coms sample_configs
              [snap false false 0; snap false true 3])).
  repeat constructor.
Defined.

(** X3.  The target altitude is looked up only after the vehicle has been
    armed: when the lookup fails (no ["altitude"] key, or no configuration
    at all) and the feed lets both waits succeed, [takeoff] ends in that
    lookup's exception with the vehicle in mode GUIDED and armed, and no
    climb commanded. *)
Theorem takeoff_without_altitude w e unready s1 unarmed s2 rest :
  py_getitem (configs w) "altitude" = Error e →
  feed w = unready ++ s1 :: unarmed ++ s2 :: rest →
  Forall (λ s, is_armable s = false) unready → is_armable s1 = true →
  Forall (λ s, armed s = false) unarmed → armed s2 = true →
  takeoff w =
  Raised e
    (advance rest
       ([EPrint "Pre-arm checks" None] ++
        waits "Waiting for vehicle to initialize" (length unready) ++
        [EPrint "Arming motors" None; ESetMode "GUIDED"; ESetArmed true] ++
        waits "Waiting to arm vehicle" (length unarmed) ++
        [EPrint "Taking off" None]) w).
Proof.
  intros Halt Hfeed Hp1 Hs1 Hp2 Hs2.
  pose proof (λ attr msg v v',
    poll_once_loop _ (configs w) _ _ (λ x _, wait_step_run attr msg x) v v')
    as Hwait.
  unfold takeoff, while. run. eapply (seq_next _ _ tt).
  { apply Hwait; [done|].
    eexists unready, s1, _. split_and!; [exact Hfeed| | |done].
    - eapply Forall_impl; [exact Hp1|]. intros s. apply negb_true_iff.
    - by apply negb_false_iff. }
  run. eapply (seq_next _ _ tt).
  { apply Hwait; [done|].
    eexists unarmed, s2, rest. split_and!; [done| | |done].
    - eapply Forall_impl; [exact Hp2|]. intros s. apply negb_true_iff.
    - by apply negb_false_iff. }
  run. unfold config. run. rewrite Halt. run.
  f_equal. rewrite !concat_map_const. merge_world.
Qed.

Lemma takeoff_without_altitude_sample :
  py_getitem PNone "altitude" = Error TypeError ∧
  takeoff (fresh sample_coms PNone
             [snap false false 0; snap true false 0; snap true true 0]) =
  Raised TypeError
    (advance []
       [EPrint "Pre-arm checks" None;
        EPrint "Waiting for vehicle to initialize" None; ESleep 1;
        EPrint "Arming motors" None; ESetMode "GUIDED"; ESetArmed true;
        EPrint "Taking off" None]
       (fresh sample_coms PNone
          [snap false false 0; snap true false 0; snap true true 0])).
Proof.
  split; [reflexivity|].
  apply (takeoff_without_altitude
           (fresh sample_coms PNone
              [snap false false 0; snap true false 0; snap true true 0])
           TypeError [snap false false 0] (snap true false 0) []
           (snap true true 0) []); try reflexivity; repeat constructor.
Defined.

(** X4.  [go_to] looks the air speed up before anything else.  When the
    lookup fails it ends in that exception with nothing requested, nothing
    read and nothing logged.  When it succeeds, then however [go_to] ends
    (completed, raised later, still polling) the autopilot has received
    exactly one call from it: the navigation request to the given point at
    that speed. *)
Theorem go_to_calls `{Externals} point w :
  match py_getitem (configs w) "air_speed" with
  | Error e => go_to point w = Raised e w
  | Value speed =>
      ∃ evs, log (world_of (go_to point w)) = log w ++ evs ∧
             autopilot_calls evs = [ESimpleGoto point speed]
  end.
Proof.
  destruct (py_getitem (configs w) "air_speed") as [speed|e] eqn:Hspeed.
  - assert (Hrules : Issues is_autopilot_call (configs w) (go_to point)
              [ESimpleGoto point speed]).
    { unfold go_to. apply issues_config. intros a Ha.
      assert (a = speed) as -> by congruence. issues. }
    destruct (Hrules w eq_refl) as (evs & Hlog & _ & Hpre & _).
    exists evs. split; [done|].
    assert (Hfirst : ∃ rest, evs = ESimpleGoto point speed :: rest).
    { revert Hlog. unfold go_to. run. rewrite (config_run _ _ _ Hspeed). run.
      match goal with |- context [loop ?s ?v] =>
        assert (Hloop : Issues is_autopilot_call (configs w) (loop s) [])
          by issues;
        destruct (Hloop v eq_refl) as (evs' & Hlog' & _);
        destruct (loop s v) as [[] v'| |]
      end; cbn in *; rewrite Hlog'; cbn; rewrite <- ?app_assoc;
        intros Heq; apply app_inv_head in Heq; subst evs; cbn; eauto. }
    destruct Hfirst as (rest & ->). cbn in *.
    destruct Hpre as (k & Hk). injection Hk as Hk.
    by destruct (List.filter is_autopilot_call rest).
  - unfold go_to, config. run. by rewrite Hspeed.
Qed.

(** X5.  The waypoint tolerance is looked up in the polling loop, after the
    navigation request: when the air speed is configured and the lookup of
    the tolerance fails, [go_to] has sent the request and taken one reading
    when it ends in that exception. *)
Theorem go_to_without_tolerance `{Externals} point speed e w s rest :
  py_getitem (configs w) "air_speed" = Value speed →
  py_getitem (configs w) "waypoint_tolerance" = Error e →
  feed w = s :: rest →
  go_to point w = Raised e (advance rest [ESimpleGoto point speed] w).
Proof.
  intros Hspeed Htol Hfeed. unfold go_to. run.
  rewrite (config_run _ _ _ Hspeed). run. unfold loop. cbn [loop_rounds].
  run. rewrite (read_run _ _ s rest) by exact Hfeed. run.
  unfold config. run. rewrite Htol. run. reflexivity.
Qed.

Lemma go_to_without_tolerance_sample :
  py_getitem (PDict (<["air_speed" := PInt 5]> ∅)) "air_speed" = Value (PInt 5) ∧
  py_getitem (PDict (<["air_speed" := PInt 5]> ∅)) "waypoint_tolerance" =
    Error (KeyError "waypoint_tolerance") ∧
  @go_to sample_externals ground_point
    (fresh sample_coms (PDict (<["air_speed" := PInt 5]> ∅)) goto_feed) =
  Raised (KeyError "waypoint_tolerance")
    (advance [snap true true 10; snap true true 3; snap true true 1;
              snap true true 0]
       [ESimpleGoto ground_point (PInt 5)]
       (fresh sample_coms (PDict (<["air_speed" := PInt 5]> ∅)) goto_feed)).
Proof.
  split; [reflexivity|]. split; [reflexivity|].
  exact (@go_to_without_tolerance sample_externals ground_point (PInt 5)
           (KeyError "waypoint_tolerance")
           (fresh sample_coms (PDict (<["air_speed" := PInt 5]> ∅)) goto_feed)
           (snap true true 50)
           [snap true true 10; snap true true 3; snap true true 1;
            snap true true 0] eq_refl eq_refl eq_refl).
Defined.

(** X6.  However [land] ends (completed or still descending), the
    autopilot has received exactly one call from it: the switch to the
    landing mode that the vehicle object holds. *)
Theorem land_one_call w :
  ∃ evs, log (world_of (land w)) = log w ++ evs ∧
         autopilot_calls evs = [ESetMode (land_mode w)].
Proof.
  unfold land, while. run.
  match goal with |- context [loop ?s ?v] =>
    assert (Hloop : Issues is_autopilot_call (configs w) (loop s) [])
      by issues;
    destruct (Hloop v eq_refl) as (evs' & Hlog' & _ & Hpre' & _);
    destruct (loop s v) as [[] v'| |]
  end; apply prefix_nil_inv in Hpre';
    unfold print, sleep, emit, mbind, M_bind; cbn in *;
    rewrite Hlog'; cbn; rewrite <- ?app_assoc;
    eexists; (split; [reflexivity|]);
    cbn; unfold autopilot_calls; rewrite ?List.filter_app, Hpre'; done.
Qed.

(** ** Command dispatch at its edges *)

(** X7.  A command that cannot be subscripted by ["Type"] (it is not a
    dict, or it has no such key) makes [coms_callback] end in the
    exception of that subscript, before anything is read, logged or
    changed. *)
Theorem dispatch_without_type `{Externals} command e w :
  py_getitem command "Type" = Error e →
  coms_callback command w = Raised e w.
Proof. intros Hty. unfold coms_callback. run. by rewrite Hty. Qed.

Lemma dispatch_without_type_sample :
  py_getitem (PList [PStr "takeoff"]) "Type" = Error TypeError ∧
  py_getitem (PDict ∅) "Type" = Error (KeyError "Type") ∧
  @coms_callback sample_externals (PList [PStr "takeoff"])
    (fresh sample_coms sample_configs goto_feed) =
  Raised TypeError (fresh sample_coms sample_configs goto_feed) ∧
  @coms_callback sample_externals (PDict ∅)
    (fresh sample_coms sample_configs goto_feed) =
  Raised (KeyError "Type") (fresh sample_coms sample_configs goto_feed).
Proof.
  split; [reflexivity|]. split; [reflexivity|]. split.
  - exact (@dispatch_without_type sample_externals (PList [PStr "takeoff"])
             TypeError (fresh sample_coms sample_configs goto_feed) eq_refl).
  - exact (@dispatch_without_type sample_externals (PDict ∅)
             (KeyError "Type") (fresh sample_coms sample_configs goto_feed)
             eq_refl).
Defined.

(** X8.  No command is gated on the status: for every command, running
    the handler under another status gives the same run (the same reads,
    the same log, the same end), with that status carried through
    unchanged. *)
Theorem dispatch_any_status `{Externals} command st w :
  coms_callback command (set_status st w) =
  on_world (set_status st) (coms_callback command w).
Proof.
  pose proof (framed_coms_callback command) as Hframed.
  exact (framed_set_status (coms_callback command) st w).
Qed.

(** X9.  The handler decodes the body in the order latitude, longitude,
    altitude: a [go_to] command whose body holds ["Lat"], ["Lon"] and
    ["Alt"] runs [go_to] on the point made of these three values, and a
    [set_altitude] command whose body holds ["Alt"] runs [set_altitude] on
    that value; what else the command or its body hold is ignored. *)
Theorem dispatch_decodes_body `{Externals} command body altitude w :
  py_getitem command "Body" = Value (PDict body) →
  body !! "Alt" = Some altitude →
  (∀ la lo,
     py_getitem command "Type" = Value (PStr "go_to") →
     body !! "Lat" = Some la → body !! "Lon" = Some lo →
     coms_callback command w =
     go_to {| lat := la; lon := lo; alt := altitude |} w) ∧
  (py_getitem command "Type" = Value (PStr "set_altitude") →
   coms_callback command w = set_altitude altitude w).
Proof.
  intros Hbody Halt. split.
  - intros la lo Hty Hlat Hlon. unfold coms_callback.
    repeat (run; rewrite ?Hty, ?Hbody, ?Hlat, ?Hlon, ?Halt). done.
  - intros Hty. unfold coms_callback.
    repeat (run; rewrite ?Hty, ?Hbody, ?Halt). done.
Qed.

Lemma dispatch_decodes_body_sample :
  @coms_callback sample_externals goto_command
    (fresh sample_coms sample_configs goto_feed) =
  @go_to sample_externals {| lat := PInt 1; lon := PInt 2; alt := PInt 0 |}
    (fresh sample_coms sample_configs goto_feed).
Proof.
  apply (proj1 (@dispatch_decodes_body sample_externals goto_command
                  goto_body (PInt 0)
                  (fresh sample_coms sample_configs goto_feed)
                  eq_refl eq_refl)); reflexivity.
Defined.

(** X10.  A [go_to] or [set_altitude] command without a usable body is
    rejected while its arguments are decoded, before any request to the
    autopilot: a command without ["Body"] ends in [KeyError], and a body
    that is not a dict (a list, a string, a number, [None]) ends in
    [TypeError]; the vehicle is as it was. *)
Theorem dispatch_without_body `{Externals} command w :
  py_getitem command "Type" = Value (PStr "go_to") ∨
  py_getitem command "Type" = Value (PStr "set_altitude") →
  match py_getitem command "Body" with
  | Error e => coms_callback command w = Raised e w
  | Value (PDict _) => True
  | Value _ => coms_callback command w = Raised TypeError w
  end.
Proof.
  intros Hty.
  destruct (py_getitem command "Body") as [body|e] eqn:Hbody;
    [destruct body; try done|];
    (destruct Hty as [Hty|Hty]; unfold coms_callback;
     repeat (run; rewrite ?Hty, ?Hbody); done).
Qed.

Lemma dispatch_without_body_sample :
  @coms_callback sample_externals
    (PDict (<["Type" := PStr "set_altitude"]> (<["Body" := PInt 30]> ∅)))
    (fresh sample_coms sample_configs goto_feed) =
  Raised TypeError (fresh sample_coms sample_configs goto_feed).
Proof.
  exact (@dispatch_without_body sample_externals
           (PDict (<["Type" := PStr "set_altitude"]> (<["Body" := PInt 30]> ∅)))
           (fresh sample_coms sample_configs goto_feed)
           (or_intror eq_refl)).
Defined.

(** ** The telemetry thread *)

#[global] Instance reporting_preorder address : PreOrder (reporting address).
Proof.
  split.
  - intros w. split_and!; try done. exists []. by rewrite app_nil_r.
  - intros w1 w2 w3 (Hs1 & Hc1 & Hm1 & e1 & Hl1 & He1)
      (Hs2 & Hc2 & Hm2 & e2 & Hl2 & He2).
    split_and!; try congruence. exists (e1 ++ e2). split.
    + by rewrite Hl2, Hl1, app_assoc.
    + apply Forall_app. split; [done|]. by rewrite <- Hs1, <- Hc1.
Qed.

Lemma reporting_read address {A : Type} (attr : Snapshot → A) :
  Respects (reporting address) (read attr).
Proof.
  intros w. unfold read. destruct (feed w) as [|s f]; [reflexivity|].
  split_and!; try done. exists []. cbn. by rewrite app_nil_r.
Qed.

Lemma reporting_quiet address e :
  (∀ st cfg, update_event address st cfg e) →
  Respects (reporting address) (emit e).
Proof.
  intros He w. split_and!; try done. exists [e]. split; [done|].
  apply Forall_singleton, He.
Qed.

Lemma reporting_battery_fraction address :
  Respects (reporting address) battery_fraction.
Proof.
  unfold battery_fraction. apply respects_bind; [apply _|apply reporting_read|].
  intros [z|]; [|apply respects_ret; apply _].
  destruct (z =? 0)%Z; [apply respects_ret; apply _|].
  apply respects_bind; [apply _|apply reporting_read|].
  intros [z'|]; [apply respects_lift|apply respects_raise]; apply _.
Qed.

Lemma reporting_send `{Externals} address (location : Q * Q) (battery : Q) :
  Respects (reporting address)
    (now ← read clock;
     origin ← gets (λ w, con_timestamp (coms w));
     peer ← gets (λ w, gcs_timestamp (coms w));
     sid ← config "vehicle_id";
     id ← new_msg_id;
     st ← gets status;
     let update_message :=
       {| m_type := "update";
          m_time := time_add (round (time_sub now origin)) peer;
          m_sid := sid;
          m_tid := 0;
          m_id := id;
          m_vehicleType := "VTOL";
          m_lat := location.1;
          m_lon := location.2;
          m_status := st;
          m_battery := battery |} in
     emit (ESendTillAck address update_message (m_id update_message));;
     sleep 1).
Proof.
  intros w. rewrite bind_run. unfold read.
  destruct (feed w) as [|s f] eqn:Hfeed; [reflexivity|].
  unfold config. run.
  destruct (py_getitem (configs w) "vehicle_id") as [sid|e] eqn:Hsid; run.
  - split_and!; try done. eexists [_; _]. split.
    + cbn. rewrite <- ?app_assoc. reflexivity.
    + repeat constructor; done.
  - split_and!; try done. exists []. by rewrite app_nil_r.
Qed.

Lemma reporting_update_cycle `{Externals} address :
  Respects (reporting address) (update_cycle address).
Proof.
  unfold update_cycle. apply respects_bind; [apply _|apply reporting_read|].
  intros location.
  apply respects_bind; [apply _|apply reporting_battery_fraction|].
  intros battery. apply reporting_send.
Qed.

Lemma reporting_rounds `{Externals} address :
  Respects (reporting address)
    (while (completed ← read MISSION_COMPLETED; mret (negb completed))
           (update_cycle address)).
Proof.
  apply respects_while; [apply _| |apply reporting_update_cycle].
  apply respects_bind; [apply _|apply reporting_read|].
  intros completed. apply respects_ret, _.
Qed.

(** The thread is its loop, after its first line and before the status
    is reset. *)
Lemma update_thread_run `{Externals} address w :
  update_thread address w =
  match while (completed ← read MISSION_COMPLETED; mret (negb completed))
              (update_cycle address)
              (add_log [EPrint ("Starting update thread" +:+ newline) None] w)
  with
  | Done _ w' => Done tt (set_status (PStr "ready") w')
  | Raised e w' => Raised e w'
  | Pending w' => Pending w'
  end.
Proof. reflexivity. Qed.

(** X11.  [update_thread] resets the status to ["ready"] exactly when
    it returns: when it ends in an exception, or is still reporting, the
    status is the one it started with. *)
Theorem update_thread_final_status `{Externals} address w :
  match update_thread address w with
  | Done _ w' => status w' = PStr "ready"
  | Raised _ w' | Pending w' => status w' = status w
  end.
Proof.
  rewrite update_thread_run.
  destruct (reporting_rounds address
              (add_log [EPrint ("Starting update thread" +:+ newline) None] w))
    as (Hstatus & _).
  by destruct (while _ _ _).
Qed.

(** X12.  Whatever [update_thread] logs, however it ends, is console
    output, a pause, or an update message handed to the radio for the
    address it was given, to be acknowledged under the message's own
    identifier, with type ["update"], target 0, vehicle type ["VTOL"], the
    configured [vehicle_id] as sender and the status the thread started
    with; it asks nothing of the autopilot and leaves the configuration
    and the landing mode as they were. *)
Theorem update_thread_messages `{Externals} address w :
  ∃ evs,
    log (world_of (update_thread address w)) = log w ++ evs ∧
    Forall (update_event address (status w) (configs w)) evs ∧
    configs (world_of (update_thread address w)) = configs w ∧
    land_mode (world_of (update_thread address w)) = land_mode w.
Proof.
  rewrite update_thread_run.
  destruct (reporting_rounds address
              (add_log [EPrint ("Starting update thread" +:+ newline) None] w))
    as (_ & Hcfg & Hmode & evs & Hlog & Hevs).
  exists (EPrint ("Starting update thread" +:+ newline) None :: evs).
  assert (Hend : ∀ o : outcome unit,
    world_of match o with
             | Done _ w' => Done tt (set_status (PStr "ready") w')
             | Raised e w' => Raised e w'
             | Pending w' => Pending w'
             end = world_of o ∨
    world_of match o with
             | Done _ w' => Done tt (set_status (PStr "ready") w')
             | Raised e w' => Raised e w'
             | Pending w' => Pending w'
             end = set_status (PStr "ready") (world_of o)).
  { intros [| |]; cbn; auto. }
  destruct (Hend (while (completed ← read MISSION_COMPLETED;
                         mret (negb completed)) (update_cycle address)
                    (add_log [EPrint ("Starting update thread" +:+ newline) None] w)))
    as [-> | ->]; cbn [set_status log configs land_mode];
    (split_and!; [by rewrite Hlog; cbn; rewrite <- app_assoc
                 |by constructor|done|done]).
Qed.

Lemma shrinks_battery_fraction : Respects shrinks battery_fraction.
Proof.
  unfold battery_fraction. apply respects_bind; [apply _|apply shrinks_read|].
  intros [z|]; [|apply respects_ret; apply _].
  destruct (z =? 0)%Z; [apply respects_ret; apply _|].
  apply respects_bind; [apply _|apply shrinks_read|].
  intros [z'|]; [apply respects_lift|apply respects_raise]; apply _.
Qed.

Lemma shrinks_update_cycle `{Externals} address :
  Respects shrinks (update_cycle address).
Proof.
  unfold update_cycle. apply respects_bind; [apply _|apply shrinks_read|].
  intros location.
  apply respects_bind; [apply _|apply shrinks_battery_fraction|].
  intros battery. apply respects_bind; [apply _|apply shrinks_read|].
  intros now. apply respects_bind; [apply _|apply respects_gets, _|].
  intros origin. apply respects_bind; [apply _|apply respects_gets, _|].
  intros peer. apply respects_bind; [apply _|apply respects_config, _|].
  intros sid.
  apply respects_bind; [apply _|intros w; unfold shrinks; cbn; lia|].
  intros id. apply respects_bind; [apply _|apply respects_gets, _|].
  intros st. apply respects_bind; [apply _|apply shrinks_emit|].
  intros _. apply shrinks_emit.
Qed.

(** The loop of the thread, one test at a time. *)
Lemma update_rounds_unfold `{Externals} address w :
  while (completed ← read MISSION_COMPLETED; mret (negb completed))
        (update_cycle address) w =
  match feed w with
  | [] => Pending w
  | s :: f =>
      if MISSION_COMPLETED s then Done tt (set_feed f w)
      else (update_cycle address;;
            while (completed ← read MISSION_COMPLETED; mret (negb completed))
                  (update_cycle address)) (set_feed f w)
  end.
Proof.
  rewrite while_unfold;
    [|intros a; apply respects_ret, _|apply shrinks_update_cycle].
  rewrite bind_run. unfold read.
  destruct (feed w) as [|s f]; [done|]. by destruct (MISSION_COMPLETED s).
Qed.

(** *** The cycles of the thread *)

Lemma reported_nil `{Externals} address sid rest w :
  reported address sid [] rest w = set_feed rest w.
Proof.
  unfold reported, set_feed. cbn. rewrite Z.add_0_r, app_nil_r.
  by destruct w as [? ? ? [] ? ?].
Qed.

Lemma reported_cons `{Externals} address sid c cycles rest rest1 w :
  reported address sid cycles rest (reported address sid [c] rest1 w) =
  reported address sid (c :: cycles) rest w.
Proof.
  unfold reported. cbn [status configs land_mode coms feed log con_timestamp
    gcs_timestamp msg_counter length cycle_events].
  f_equal.
  - f_equal. lia.
  - by rewrite <- app_assoc.
Qed.

(** One cycle after its test, reading by reading. *)
Lemma update_cycle_run `{Externals} address sid w :
  py_getitem (configs w) "vehicle_id" = Value sid →
  let sent place battery f :=
    match f with
    | [] => Pending (set_feed [] w)
    | clk :: rest =>
        Done tt
          {| status := status w; configs := configs w;
             land_mode := land_mode w;
             coms := {| con_timestamp := con_timestamp (coms w);
                        gcs_timestamp := gcs_timestamp (coms w);
                        msg_counter := msg_counter (coms w) + 1 |};
             feed := rest;
             log := log w ++
               [ESendTillAck address
                  {| m_type := "update";
                     m_time :=
                       time_add (round (time_sub (clock clk)
                                          (con_timestamp (coms w))))
                         (gcs_timestamp (coms w));
                     m_sid := sid;
                     m_tid := 0;
                     m_id := msg_counter (coms w);
                     m_vehicleType := "VTOL";
                     m_lat := pos_lat place;
                     m_lon := pos_lon place;
                     m_status := status w;
                     m_battery := battery |}
                  (msg_counter (coms w));
                ESleep 1] |}
    end in
  update_cycle address w =
  match feed w with
  | [] => Pending w
  | [place] => Pending (set_feed [] w)
  | place :: level :: f =>
      match battery_level level with
      | Some z =>
          if (z =? 0)%Z then sent place 0%Q f
          else match f with
               | [] => Pending (set_feed [] w)
               | d :: f' =>
                   match battery_level d with
                   | Some z' =>
                       match py_div_float z' 100 with
                       | Value q => sent place q f'
                       | Error e => Raised e (set_feed f' w)
                       end
                   | None => Raised TypeError (set_feed f' w)
                   end
               end
      | None => sent place 0%Q f
      end
  end.
Proof.
  intros Hsid sent. subst sent.
  unfold update_cycle, battery_fraction, config, read. run.
  destruct (feed w) as [|place [|level f]]; run; [reflexivity..|].
  assert (Hend : ∀ v : World, v = v) by done.
  destruct (battery_level level) as [z|]; run;
    [destruct (z =? 0)%Z; run;
       [|destruct f as [|d f]; run; [reflexivity|];
         destruct (battery_level d) as [z'|]; run; [|reflexivity];
         destruct (py_div_float z' 100) as [q|e]; run; [|reflexivity]]|];
    (destruct f as [|clk rest]; run; [reflexivity|]);
    rewrite Hsid; run;
    unfold sleep, emit, add_log, set_coms, set_feed; cbn;
    by rewrite <- app_assoc.
Qed.

(** One cycle after its test: with a [vehicle_id] configured it goes
    through exactly when the battery readings allow it, and it has then
    sent one message, stamped with its own clock reading. *)
Lemma update_cycle_done `{Externals} address sid test w w' :
  py_getitem (configs w) "vehicle_id" = Value sid →
  update_cycle address w = Done tt w' ↔
  ∃ c rest,
    c_test c = test ∧ feed w = cycle_reads c ++ rest ∧
    battery_read c = true ∧
    w' = reported address sid [c] rest w.
Proof.
  intros Hsid. rewrite (update_cycle_run address sid w Hsid).
  assert (Hshape : ∀ c : Cycle, ∃ t p l d k,
            c = {| c_test := t; c_place := p; c_level := l;
                   c_division := d; c_clock := k |})
    by (intros []; by eexists _, _, _, _, _).
  split.
  - intros Hrun.
    destruct (feed w) as [|place [|level f]]; [done..|].
    destruct (battery_level level) as [z|] eqn:Hlevel;
      [destruct (z =? 0)%Z eqn:Hz;
         [|destruct f as [|d f]; [done|];
           destruct (battery_level d) as [z'|] eqn:Hd; [|done];
           destruct (py_div_float z' 100) as [q|e] eqn:Hq; [|done]]|];
      (destruct f as [|clk rest]; [done|]); injection Hrun as <-.
    + exists {| c_test := test; c_place := place; c_level := level;
                c_division := None; c_clock := clk |}, rest.
      split_and!; try done. unfold battery_read. cbn. by rewrite Hlevel.
    + exists {| c_test := test; c_place := place; c_level := level;
                c_division := Some d; c_clock := clk |}, rest.
      split_and!; try done.
      * unfold battery_read. cbn. rewrite Hlevel. cbn. rewrite Hz. cbn.
        by rewrite Hd, Hq.
      * unfold reported. cbn. unfold cycle_message, cycle_battery. cbn.
        by rewrite Hd, Hq.
    + exists {| c_test := test; c_place := place; c_level := level;
                c_division := None; c_clock := clk |}, rest.
      split_and!; try done. unfold battery_read. cbn. by rewrite Hlevel.
  - intros (c & rest & _ & Hf & Hb & ->).
    destruct (Hshape c) as (t & p & l & d & k & ->).
    unfold battery_read in Hb. cbn in Hb. rewrite Hf.
    unfold cycle_reads. cbn [c_place c_level c_division c_clock app].
    destruct (battery_level l) as [z|] eqn:Hlevel, d as [d|]; try done.
    + apply andb_true_iff in Hb as [Hz Hd].
      apply negb_true_iff in Hz. rewrite Hz. cbn.
      destruct (battery_level d) as [z'|] eqn:Hd'; [|done].
      destruct (py_div_float z' 100) as [q|e] eqn:Hq; [|done].
      unfold reported. cbn. unfold cycle_message, cycle_battery. cbn.
      by rewrite Hd', Hq.
    + rewrite Hb. reflexivity.
Qed.

Lemma update_cycle_goes `{Externals} address sid c rest w :
  py_getitem (configs w) "vehicle_id" = Value sid →
  feed w = cycle_reads c ++ rest → battery_read c = true →
  update_cycle address w = Done tt (reported address sid [c] rest w).
Proof.
  intros Hsid Hfeed Hb. apply (update_cycle_done address sid (c_test c)).
  - exact Hsid.
  - by exists c, rest.
Qed.

(** The loop of the thread over whole cycles: it returns at the first
    test that finds the mission completed, and it is still reporting when
    the readings end with a cycle. *)
Lemma telemetry_rounds_run `{Externals} address sid cycles : ∀ w,
  py_getitem (configs w) "vehicle_id" = Value sid →
  Forall (λ c, cycle_ok c = true) cycles →
  (∀ last rest,
     feed w = concat (map cycle_feed cycles) ++ last :: rest →
     MISSION_COMPLETED last = true →
     while (completed ← read MISSION_COMPLETED; mret (negb completed))
           (update_cycle address) w =
     Done tt (reported address sid cycles rest w)) ∧
  (feed w = concat (map cycle_feed cycles) →
   while (completed ← read MISSION_COMPLETED; mret (negb completed))
         (update_cycle address) w =
   Pending (reported address sid cycles [] w)).
Proof.
  induction cycles as [|c cycles IH]; intros w Hsid Hok.
  - split.
    + intros last rest Hfeed Hlast.
      rewrite update_rounds_unfold, Hfeed. cbn [concat map app].
      by rewrite Hlast, reported_nil.
    + intros Hfeed. rewrite update_rounds_unfold, Hfeed, reported_nil.
      cbn [concat map]. f_equal. destruct w. cbn in *. by subst.
  - inversion_clear Hok as [|?? Hc Hok'].
    apply andb_true_iff in Hc as [Htest Hb]. apply negb_true_iff in Htest.
    assert (Hstep : ∀ rest1, feed w = cycle_feed c ++ rest1 →
      while (completed ← read MISSION_COMPLETED; mret (negb completed))
            (update_cycle address) w =
      while (completed ← read MISSION_COMPLETED; mret (negb completed))
            (update_cycle address) (reported address sid [c] rest1 w)).
    { intros rest1 Hfeed. rewrite update_rounds_unfold, Hfeed.
      cbn [cycle_feed app]. rewrite Htest, bind_run.
      by rewrite (update_cycle_goes address sid c rest1). }
    specialize (IH (reported address sid [c]
                      (concat (map cycle_feed cycles)) w) Hsid Hok') as IHp.
    split.
    + intros last rest Hfeed Hlast. cbn in Hfeed.
      rewrite <- app_assoc in Hfeed. rewrite (Hstep _ Hfeed).
      destruct (IH (reported address sid [c]
                      (concat (map cycle_feed cycles) ++ last :: rest) w)
                  Hsid Hok') as [Hdone _].
      rewrite (Hdone last rest eq_refl Hlast). by rewrite reported_cons.
    + intros Hfeed. cbn in Hfeed. rewrite (Hstep _ Hfeed).
      destruct IHp as [_ Hpend].
      rewrite (Hpend eq_refl). by rewrite reported_cons.
Qed.

Lemma telemetry_rounds_done `{Externals} address sid : ∀ n w w',
  (length (feed w) <= n)%nat →
  py_getitem (configs w) "vehicle_id" = Value sid →
  while (completed ← read MISSION_COMPLETED; mret (negb completed))
        (update_cycle address) w = Done tt w' →
  ∃ cycles last rest,
    feed w = concat (map cycle_feed cycles) ++ last :: rest ∧
    Forall (λ c, cycle_ok c = true) cycles ∧
    MISSION_COMPLETED last = true ∧
    w' = reported address sid cycles rest w.
Proof.
  induction n as [|n IH]; intros w w' Hn Hsid Hrun;
    rewrite update_rounds_unfold in Hrun;
    destruct (feed w) as [|s f] eqn:Hfeed; try done;
    [cbn in Hn; lia|].
  destruct (MISSION_COMPLETED s) eqn:Hs.
  - injection Hrun as <-. exists [], s, f.
    split_and!; [done|constructor|done|by rewrite reported_nil].
  - rewrite bind_run in Hrun.
    destruct (update_cycle address (set_feed f w)) as [[] w1| |] eqn:Hcycle;
      [|done..].
    apply (update_cycle_done address sid s) in Hcycle
      as (c & rest1 & Htest & Hf & Hb & ->); [|exact Hsid].
    cbn [feed set_feed] in Hf.
    apply IH in Hrun as (cycles & last & rest & Hfeed1 & Hok & Hlast & ->);
      [| |exact Hsid].
    + exists (c :: cycles), last, rest. split_and!.
      * cbn [feed reported] in Hfeed1. rewrite Hf, Hfeed1, <- Htest.
        change (concat (map cycle_feed (c :: cycles)))
          with (cycle_feed c ++ concat (map cycle_feed cycles)).
        by rewrite <- app_assoc.
      * constructor; [|done]. unfold cycle_ok. by rewrite Htest, Hs, Hb.
      * done.
      * exact (reported_cons address sid c cycles rest rest1 w).
    + cbn. cbn in Hn. rewrite Hf, length_app in Hn.
      unfold cycle_reads in Hn. cbn in Hn. lia.
Qed.

(** C9.  With a [vehicle_id] configured, in every cycle the thread goes
    through it sends one update message whose time is
    [round (now - con_timestamp) + gcs_timestamp], where [now] is the clock
    reading of that cycle (the last reading the cycle takes) and
    [con_timestamp] and [gcs_timestamp] are those the link held when the
    thread started; the thread never changes them.  It returns exactly
    when the readings are whole cycles followed by a test that finds the
    mission completed, having sent these messages and no other; and over
    readings that are whole cycles only it is still reporting, having
    sent them all. *)
Theorem update_thread_stamps `{Externals} address sid w :
  py_getitem (configs w) "vehicle_id" = Value sid →
  (∀ w',
     update_thread address w = Done tt w' ↔
     ∃ cycles last rest,
       feed w = concat (map cycle_feed cycles) ++ last :: rest ∧
       Forall (λ c, cycle_ok c = true) cycles ∧
       MISSION_COMPLETED last = true ∧
       w' = {| status := PStr "ready"; configs := configs w;
               land_mode := land_mode w;
               coms := {| con_timestamp := con_timestamp (coms w);
                          gcs_timestamp := gcs_timestamp (coms w);
                          msg_counter := msg_counter (coms w) +
                                         Z.of_nat (length cycles) |};
               feed := rest;
               log := log w ++
                 EPrint ("Starting update thread" +:+ newline) None ::
                 cycle_events address (con_timestamp (coms w))
                   (gcs_timestamp (coms w)) (status w) sid
                   (msg_counter (coms w)) cycles |}) ∧
  (∀ cycles,
     feed w = concat (map cycle_feed cycles) →
     Forall (λ c, cycle_ok c = true) cycles →
     update_thread address w =
     Pending
       {| status := status w; configs := configs w;
          land_mode := land_mode w;
          coms := {| con_timestamp := con_timestamp (coms w);
                     gcs_timestamp := gcs_timestamp (coms w);
                     msg_counter := msg_counter (coms w) +
                                    Z.of_nat (length cycles) |};
          feed := [];
          log := log w ++
            EPrint ("Starting update thread" +:+ newline) None ::
            cycle_events address (con_timestamp (coms w))
              (gcs_timestamp (coms w)) (status w) sid
              (msg_counter (coms w)) cycles |}).
Proof.
  intros Hsid.
  assert (Hsid0 : py_getitem
            (configs (add_log [EPrint ("Starting update thread" +:+ newline)
                                 None] w)) "vehicle_id" = Value sid)
    by exact Hsid.
  split.
  - intros w'. rewrite update_thread_run. split.
    + destruct (while _ _ _) as [[] w1| |] eqn:Hrun; [|done..].
      intros [= <-].
      apply (telemetry_rounds_done address sid _ _ _ (Nat.le_refl _) Hsid0)
        in Hrun as (cycles & last & rest & Hf & Hok & Hlast & ->).
      exists cycles, last, rest. split_and!; try done.
      unfold reported, set_status. cbn. f_equal. by rewrite <- app_assoc.
    + intros (cycles & last & rest & Hf & Hok & Hlast & ->).
      destruct (telemetry_rounds_run address sid cycles _ Hsid0 Hok)
        as [Hdone _].
      rewrite (Hdone last rest Hf Hlast).
      unfold reported, set_status. cbn. do 2 f_equal. by rewrite <- app_assoc.
  - intros cycles Hf Hok. rewrite update_thread_run.
    destruct (telemetry_rounds_run address sid cycles _ Hsid0 Hok)
      as [_ Hpend].
    rewrite (Hpend Hf).
    unfold reported. cbn. do 2 f_equal. by rewrite <- app_assoc.
Qed.

(** One cycle on the sample link: the clock reads 12, the link was set up
    at 3 and the station was then at 100, so the message is stamped 109;
    the battery level 80 is reported as the double 0.8. *)
Lemma update_thread_stamps_sample :
  py_getitem sample_configs "vehicle_id" = Value (PInt 7) ∧
  @update_thread sample_externals (PStr "gcs")
    (fresh sample_coms sample_configs telemetry_feed) =
  Done tt
    {| status := PStr "ready"; configs := sample_configs; land_mode := "LAND";
       coms := {| con_timestamp := 3; gcs_timestamp := 100; msg_counter := 1 |};
       feed := [];
       log := [EPrint ("Starting update thread" +:+ newline) None;
               ESendTillAck (PStr "gcs")
                 {| m_type := "update"; m_time := 109; m_sid := PInt 7;
                    m_tid := 0; m_id := 0; m_vehicleType := "VTOL";
                    m_lat := 35; m_lon := -120; m_status := PStr "ready";
                    m_battery := 3602879701896397 # 4503599627370496 |} 0;
               ESleep 1] |}.
Proof.
  split; [reflexivity|].
  apply (proj1 (@update_thread_stamps sample_externals (PStr "gcs") (PInt 7)
                  (fresh sample_coms sample_configs telemetry_feed) eq_refl)).
  exists [sample_cycle], completed_snap, [].
  split; [reflexivity|].
  split; [apply Forall_singleton; reflexivity|].
  split; reflexivity.
Defined.

Lemma issues_battery_fraction sel cfg : Issues sel cfg battery_fraction [].
Proof.
  unfold battery_fraction. apply issues_then; [apply issues_read|].
  intros [z|]; [|apply issues_ret].
  destruct (z =? 0)%Z; [apply issues_ret|].
  apply issues_then; [apply issues_read|].
  intros [z'|]; [apply issues_lift|apply issues_raise].
Qed.

(** Without a [vehicle_id] a round of the thread does not complete. *)
Lemma update_cycle_needs_vehicle_id `{Externals} address e w w' :
  py_getitem (configs w) "vehicle_id" = Error e →
  update_cycle address w ≠ Done tt w'.
Proof.
  intros Hid Hrun. unfold update_cycle, battery_fraction, config, read in Hrun.
  destruct (feed w) as [|s0 [|s1 [|s2 [|s3 f]]]] eqn:Hfeed;
    run in Hrun; rewrite ?Hfeed in Hrun; run in Hrun; try done;
    repeat match type of Hrun with
    | context [battery_level ?s] =>
        destruct (battery_level s) as [?z|]; run in Hrun; try done
    | context [(?z =? 0)%Z] => destruct (z =? 0)%Z; run in Hrun; try done
    | context [py_div_float ?z 100] =>
        destruct (py_div_float z 100); run in Hrun; try done
    end;
    rewrite ?Hid in Hrun; run in Hrun; done.
Qed.

(** X13.  Without a [vehicle_id] in the configuration the thread hands
    nothing to the radio, however it ends; and it returns only if the
    mission was already completed at its first look, before any round. *)
Theorem update_thread_without_vehicle_id `{Externals} address e w :
  py_getitem (configs w) "vehicle_id" = Error e →
  (∃ evs, log (world_of (update_thread address w)) = log w ++ evs ∧
          List.filter is_send evs = []) ∧
  (∀ w', update_thread address w = Done tt w' →
         ∃ s f, feed w = s :: f ∧ MISSION_COMPLETED s = true ∧ feed w' = f).
Proof.
  intros Hid. split.
  - assert (Hrun : Issues is_send (configs w) (update_thread address) []).
    { unfold update_thread.
      apply issues_then; [issues|intros _].
      apply issues_then; [|intros _; apply issues_change_status].
      apply issues_while; [issues|]. unfold update_cycle.
      apply issues_then; [apply issues_read|intros location].
      apply issues_then; [apply issues_battery_fraction|intros battery].
      apply issues_then; [apply issues_read|intros now].
      apply issues_then; [apply issues_gets|intros origin].
      apply issues_then; [apply issues_gets|intros peer].
      apply issues_config. intros sid Hsid. congruence. }
    destruct (Hrun w eq_refl) as (evs & Hlog & _ & Hsel & _).
    exists evs. split; [done|]. by apply prefix_nil_inv.
  - intros w' Hrun. rewrite update_thread_run, update_rounds_unfold in Hrun.
    cbn [feed add_log] in Hrun.
    destruct (feed w) as [|s f] eqn:Hfeed; [done|].
    destruct (MISSION_COMPLETED s) eqn:Hs.
    + injection Hrun as <-. by exists s, f.
    + exfalso. rewrite bind_run in Hrun.
      destruct (update_cycle address _) as [[] w1| |] eqn:Hbody; [|done..].
      by apply (update_cycle_needs_vehicle_id address e) in Hbody.
Qed.

Lemma update_thread_without_vehicle_id_sample :
  List.filter is_send
    (log (world_of (@update_thread sample_externals (PStr "gcs")
                      (fresh sample_coms (PDict ∅) telemetry_feed)))) = [].
Proof.
  destruct (@update_thread_without_vehicle_id sample_externals (PStr "gcs")
              (KeyError "vehicle_id")
              (fresh sample_coms (PDict ∅) telemetry_feed))
    as [(evs & Hlog & Hsel) _]; [reflexivity|].
  rewrite Hlog. exact Hsel.
Defined.

(** X14.  The battery level is looked at twice in a round, once to test
    it and once to divide it.  When it is there and not zero at the test
    and gone at the division, the thread ends in [TypeError]: the round's
    message is not sent, and the status is not reset. *)
Theorem update_thread_battery_lost `{Externals} address w s0 s1 s2 s3 rest z :
  feed w = s0 :: s1 :: s2 :: s3 :: rest →
  MISSION_COMPLETED s0 = false →
  battery_level s2 = Some z → z ≠ 0%Z →
  battery_level s3 = None →
  update_thread address w =
  Raised TypeError
    (advance rest [EPrint ("Starting update thread" +:+ newline) None] w).
Proof.
  intros Hfeed Hgo Hlevel Hz Hlost.
  rewrite update_thread_run, update_rounds_unfold. cbn [feed add_log].
  rewrite Hfeed, Hgo, bind_run.
  assert (Hround :
    update_cycle address
      (set_feed (s1 :: s2 :: s3 :: rest)
         (add_log [EPrint ("Starting update thread" +:+ newline) None] w)) =
    Raised TypeError
      (advance rest [EPrint ("Starting update thread" +:+ newline) None] w)).
  { unfold update_cycle, battery_fraction, read. run.
    rewrite Hlevel. apply Z.eqb_neq in Hz. rewrite Hz. run.
    rewrite Hlost. reflexivity. }
  by rewrite Hround.
Qed.

Lemma update_thread_battery_lost_sample :
  @update_thread sample_externals (PStr "gcs")
    (fresh sample_coms sample_configs battery_lost_feed) =
  Raised TypeError
    (advance [completed_snap]
       [EPrint ("Starting update thread" +:+ newline) None]
       (fresh sample_coms sample_configs battery_lost_feed)).
Proof.
  eapply (@update_thread_battery_lost sample_externals (PStr "gcs")
            (fresh sample_coms sample_configs battery_lost_feed)
            _ _ _ _ [completed_snap] 80%Z);
    [reflexivity|reflexivity|reflexivity|discriminate|reflexivity].
Defined.

(** X15.  A battery level that is null or zero is reported as 0 and is
    looked at once: such a round takes three readings of the vehicle (the
    position, the battery level, the clock), sends the position of the
    first with the stamp of the third under the next message identifier,
    and pauses one second. *)
Theorem update_cycle_without_battery `{Externals} address w s0 s1 s2 rest sid :
  feed w = s0 :: s1 :: s2 :: rest →
  battery_level s1 = None ∨ battery_level s1 = Some 0%Z →
  py_getitem (configs w) "vehicle_id" = Value sid →
  update_cycle address w =
  Done tt
    (advance rest
       [ESendTillAck address
          {| m_type := "update";
             m_time := stamp (coms w) (clock s2);
             m_sid := sid;
             m_tid := 0;
             m_id := msg_counter (coms w);
             m_vehicleType := "VTOL";
             m_lat := pos_lat s0;
             m_lon := pos_lon s0;
             m_status := status w;
             m_battery := 0 |}
          (msg_counter (coms w));
        ESleep 1]
       (set_coms {| con_timestamp := con_timestamp (coms w);
                    gcs_timestamp := gcs_timestamp (coms w);
                    msg_counter := msg_counter (coms w) + 1 |} w)).
Proof.
  intros Hfeed Hlevel Hsid.
  unfold update_cycle, battery_fraction, config, read. run. rewrite Hfeed. run.
  destruct Hlevel as [-> | ->]; run; rewrite Hsid; run;
    unfold advance, stamp, sleep, emit, add_log, set_coms, set_feed; cbn;
    rewrite <- ?app_assoc; reflexivity.
Qed.

Lemma update_cycle_without_battery_sample :
  log (world_of (@update_cycle sample_externals (PStr "gcs")
                   (fresh sample_coms sample_configs
                      [snap true true 0; no_battery_snap;
                       snap true true 0]))) =
  [ESendTillAck (PStr "gcs")
     {| m_type := "update"; m_time := 109; m_sid := PInt 7;
        m_tid := 0; m_id := 0; m_vehicleType := "VTOL"; m_lat := 35;
        m_lon := -120; m_status := PStr "ready"; m_battery := 0 |} 0;
   ESleep 1].
Proof.
  rewrite (@update_cycle_without_battery sample_externals (PStr "gcs")
             (fresh sample_coms sample_configs
                [snap true true 0; no_battery_snap; snap true true 0])
             _ _ _ [] (PInt 7) eq_refl (or_introl eq_refl) eq_refl).
  reflexivity.
Defined.

(** ** The status over a session *)

(** X16.  Over any sequence of calls of the methods (commands received,
    maneuvers, status changes, telemetry threads), with any arguments and
    however each call ends, a status that is one of the five supported
    values stays one of them. *)
Theorem status_always_valid `{Externals} w w' :
  valid_status (status w) → rtc after_call w w' →
  valid_status (status w').
Proof.
  intros Hvalid Hcalls. induction Hcalls as [w|w w1 w2 [c ->] _ IH]; [done|].
  apply IH. clear IH. destruct c; cbn [invoke].
  - by rewrite framed_keeps_status by apply _.
  - by rewrite framed_keeps_status by apply _.
  - by rewrite framed_keeps_status by apply _.
  - by rewrite framed_keeps_status by apply _.
  - by rewrite framed_keeps_status by apply _.
  - unfold change_status.
    destruct (py_in new_status statuses) eqn:Hin; cbn; [|done].
    by apply py_in_spec in Hin.
  - rewrite update_thread_run.
    destruct (reporting_rounds address
                (add_log [EPrint ("Starting update thread" +:+ newline) None] w))
      as (Hstatus & _).
    destruct (while _ _ _); cbn in *; [|by rewrite Hstatus..].
    exists "ready". split; [by left|done].
Qed.

Lemma status_always_valid_sample :
  valid_status
    (status (world_of (@invoke sample_externals (call_change_status (PStr "paused"))
               (world_of (@invoke sample_externals (call_update_thread (PStr "gcs"))
                  (fresh sample_coms sample_configs telemetry_feed)))))).
Proof.
  apply (@status_always_valid sample_externals
           (fresh sample_coms sample_configs telemetry_feed)).
  - exists "ready". split; [by left|reflexivity].
  - eapply rtc_l; [by eexists|]. apply rtc_once. by eexists.
Defined.

(** ** Mission start and attitude control *)

Lemma fly_bind_run {A B : Type} (m : Fly A) (k : A → Fly B) fl :
  (x ← m; k x) fl =
  match m fl with
  | Returned a fl' => k a fl'
  | Blocked fl' => Blocked fl'
  end.
Proof. reflexivity. Qed.

Lemma flight_eta fl : {| readings := readings fl; actions := actions fl |} = fl.
Proof. by destruct fl. Qed.

(** A polling loop is the recursion [poll] on the readings: the bound on
    its rounds never stops it. *)
Section polling.
Variables (cond : Fly bool) (body : Fly unit).
Variables (test : Reading → bool) (acts : list Action).
Hypothesis cond_run : ∀ fl,
  cond fl = match readings fl with
            | [] => Blocked fl
            | r :: rs => Returned (test r) {| readings := rs; actions := actions fl |}
            end.
Hypothesis body_run : ∀ fl,
  body fl = Returned tt {| readings := readings fl; actions := actions fl ++ acts |}.

Lemma rounds_poll : ∀ rs n done,
  (length rs < n)%nat →
  rounds n (b ← cond; if b : bool then body;; mret true else mret false)
    {| readings := rs; actions := done |} =
  poll test acts rs done.
Proof.
  induction rs as [|r rs IH]; intros n done Hn;
    (destruct n as [|n]; [cbn in Hn; lia|]); cbn [rounds];
    rewrite fly_bind_run, cond_run; cbn [readings actions].
  - reflexivity.
  - cbn [poll]. destruct (test r); [|reflexivity].
    rewrite fly_bind_run, body_run. cbn. apply IH. cbn in Hn. lia.
Qed.

Lemma whilst_poll fl :
  whilst cond body fl = poll test acts (readings fl) (actions fl).
Proof.
  unfold whilst. rewrite <- (flight_eta fl) at 2. apply rounds_poll. lia.
Qed.
End polling.

Lemma poll_returned test acts rs : ∀ done fl',
  poll test acts rs done = Returned tt fl' ↔
  ∃ pre r rest,
    rs = pre ++ r :: rest ∧ Forall (λ r, test r = true) pre ∧
    test r = false ∧
    fl' = {| readings := rest;
             actions := done ++ concat (replicate (length pre) acts) |}.
Proof.
  induction rs as [|r rs IH]; intros done fl'; cbn.
  - split; [done|]. intros ([|??] & ? & ? & ? & _); done.
  - destruct (test r) eqn:Hr.
    + rewrite IH. split.
      * intros (pre & r' & rest & -> & Hpre & Hr' & ->).
        exists (r :: pre), r', rest. split_and!; try done.
        -- by constructor.
        -- cbn. by rewrite app_assoc.
      * intros ([|p pre] & r' & rest & Hrs & Hpre & Hr' & ->);
          injection Hrs as -> ->; [congruence|].
        inversion_clear Hpre.
        exists pre, r', rest. split_and!; try done.
        cbn. by rewrite app_assoc.
    + split.
      * intros [= <-]. exists [], r, rs. cbn. by rewrite app_nil_r.
      * intros ([|p pre] & r' & rest & Hrs & Hpre & Hr' & ->);
          injection Hrs as -> ->.
        -- cbn. by rewrite app_nil_r.
        -- inversion_clear Hpre. congruence.
Qed.

(** However a polling loop ends, it has made whole rounds of its body. *)
Lemma poll_actions test acts rs : ∀ done,
  ∃ n, actions (flight_of (poll test acts rs done)) =
       done ++ concat (replicate n acts).
Proof.
  induction rs as [|r rs IH]; intros done; cbn.
  - exists 0%nat. cbn. by rewrite app_nil_r.
  - destruct (test r).
    + destruct (IH (done ++ acts)) as [n Hn]. exists (S n).
      rewrite Hn. cbn. by rewrite app_assoc.
    + exists 0%nat. cbn. by rewrite app_nil_r.
Qed.

Lemma wait_cond_run (attr : Reading → bool) fl :
  (x ← observe attr; mret (negb x)) fl =
  match readings fl with
  | [] => Blocked fl
  | r :: rs => Returned (negb (attr r)) {| readings := rs; actions := actions fl |}
  end.
Proof. rewrite fly_bind_run. unfold observe. by destruct (readings fl). Qed.

Lemma wait_body_run msg fl :
  (say msg;; nap 1) fl =
  Returned tt {| readings := readings fl;
                 actions := actions fl ++ map AEvent [EPrint msg None; ESleep 1] |}.
Proof.
  rewrite fly_bind_run. unfold say, nap, act. cbn. by rewrite <- app_assoc.
Qed.

Lemma waits_actions msg n :
  concat (replicate n (map AEvent [EPrint msg None; ESleep 1])) =
  map AEvent (waits msg n).
Proof.
  unfold waits. induction n as [|n IH]; [done|]. cbn in *. by rewrite IH.
Qed.

Lemma filter_waits msg n :
  List.filter reaches_vehicle (map AEvent (waits msg n)) = [].
Proof. unfold waits. induction n as [|n IH]; [done|]. cbn in *. exact IH. Qed.

Ltac fly :=
  repeat first
    [ rewrite fly_bind_run
    | progress cbn -[whilst mbind poll waits] ].

Tactic Notation "fly" "in" hyp(H) :=
  repeat first
    [ rewrite fly_bind_run in H
    | progress cbn -[whilst mbind poll waits] in H ].

Lemma wait_poll (attr : Reading → bool) msg fl :
  whilst (x ← observe attr; mret (negb x)) (say msg;; nap 1) fl =
  poll (λ r, negb (attr r)) (map AEvent [EPrint msg None; ESleep 1])
    (readings fl) (actions fl).
Proof.
  apply whilst_poll; intros fl0; [apply wait_cond_run|apply wait_body_run].
Qed.

Lemma wait_returned (attr : Reading → bool) msg fl fl' :
  whilst (x ← observe attr; mret (negb x)) (say msg;; nap 1) fl =
  Returned tt fl' ↔
  ∃ pre r rest,
    readings fl = pre ++ r :: rest ∧ Forall (λ r, attr r = false) pre ∧
    attr r = true ∧
    fl' = {| readings := rest;
             actions := actions fl ++ map AEvent (waits msg (length pre)) |}.
Proof.
  rewrite wait_poll, poll_returned.
  split; intros (pre & r & rest & Hrs & Hpre & Hr & ->);
    exists pre, r, rest; split_and!; try done.
  - eapply Forall_impl; [exact Hpre|]. intros x. apply negb_true_iff.
  - by apply negb_false_iff.
  - by rewrite waits_actions.
  - eapply Forall_impl; [exact Hpre|]. intros x. apply negb_true_iff.
  - by apply negb_false_iff.
  - by rewrite waits_actions.
Qed.

Lemma wait_run (attr : Reading → bool) msg fl pre r rest :
  readings fl = pre ++ r :: rest → Forall (λ r, attr r = false) pre →
  attr r = true →
  whilst (x ← observe attr; mret (negb x)) (say msg;; nap 1) fl =
  Returned tt {| readings := rest;
                 actions := actions fl ++ map AEvent (waits msg (length pre)) |}.
Proof. intros Hrs Hpre Hr. apply wait_returned. by exists pre, r, rest. Qed.

(** X17.  [start_auto_mission] returns exactly when the readings let its
    two waits succeed one after the other: polls that are not armable up
    to the first armable one, then (after mode GUIDED and the arm command)
    polls that are not armed up to the first armed one.  It has then, in
    this order, waited, set mode GUIDED, armed, waited, set the next
    mission command to 0, set mode AUTO, sent MAV_CMD_MISSION_START to
    system 0, component 0 with all parameters 0, and set the next mission
    command to 0 again. *)
Theorem start_auto_mission_run fl fl' :
  start_auto_mission fl = Returned tt fl' ↔
  ∃ unready r1 unarmed r2 rest,
    readings fl = unready ++ r1 :: unarmed ++ r2 :: rest ∧
    Forall (λ r, is_armable (vehicle r) = false) unready ∧
    is_armable (vehicle r1) = true ∧
    Forall (λ r, armed (vehicle r) = false) unarmed ∧
    armed (vehicle r2) = true ∧
    fl' = {| readings := rest;
             actions :=
               actions fl ++
               map AEvent (waits " Waiting for vehicle to initialise..."
                             (length unready)) ++
               [AEvent (ESetMode "GUIDED"); AEvent (ESetArmed true)] ++
               map AEvent (waits " Waiting for arming..." (length unarmed)) ++
               [ANextCommand 0; AEvent (ESetMode "AUTO");
                ASendMavlink (command_long_encode 0 0 MAV_CMD_MISSION_START 0
                                [0; 0; 0; 0; 0; 0; 0]%Z);
                ANextCommand 0] |}.
Proof.
  unfold start_auto_mission. rewrite fly_bind_run. split.
  - destruct (whilst _ _ fl) as [[] fl1|] eqn:Hwait1; [|done].
    apply wait_returned in Hwait1
      as (unready & r1 & rest1 & Hrs1 & Hpre1 & Hr1 & ->).
    intros Hrun. fly in Hrun.
    destruct (whilst _ _ _) as [[] fl2|] eqn:Hwait2; [|done].
    apply wait_returned in Hwait2
      as (unarmed & r2 & rest & Hrs2 & Hpre2 & Hr2 & ->).
    cbn in Hrs2. subst rest1. fly in Hrun. injection Hrun as <-.
    exists unready, r1, unarmed, r2, rest. split_and!; try done.
    f_equal. rewrite <- !app_assoc. reflexivity.
  - intros (unready & r1 & unarmed & r2 & rest & Hrs & Hpre1 & Hr1 & Hpre2
            & Hr2 & ->).
    erewrite wait_run; [|exact Hrs|exact Hpre1|exact Hr1].
    fly.
    erewrite wait_run; [|reflexivity|exact Hpre2|exact Hr2].
    fly. unfold act. cbn. rewrite <- !app_assoc. reflexivity.
Qed.

(** X18.  A [start_auto_mission] that has not returned is waiting for the
    vehicle to become armable, having asked nothing of it, or waiting for
    it to report armed, having asked for mode GUIDED and arming only: mode
    AUTO is never set and the mission is never started on a vehicle that
    has not reported armed. *)
Theorem start_auto_mission_blocked fl fl' :
  start_auto_mission fl = Blocked fl' →
  ∃ acts,
    actions fl' = actions fl ++ acts ∧
    (List.filter reaches_vehicle acts = [] ∨
     List.filter reaches_vehicle acts =
       [AEvent (ESetMode "GUIDED"); AEvent (ESetArmed true)]).
Proof.
  unfold start_auto_mission. rewrite fly_bind_run, wait_poll.
  destruct (poll_actions (λ r, negb (is_armable (vehicle r)))
              (map AEvent [EPrint " Waiting for vehicle to initialise..." None;
                           ESleep 1])
              (readings fl) (actions fl)) as [n Hn].
  rewrite waits_actions in Hn.
  destruct (poll _ _ _ _) as [[] fl1|fl1]; cbn in Hn.
  - fly. rewrite wait_poll. cbn [readings actions].
    destruct (poll_actions (λ r, negb (armed (vehicle r)))
                (map AEvent [EPrint " Waiting for arming..." None; ESleep 1])
                (readings fl1)
                ((actions fl1 ++ [AEvent (ESetMode "GUIDED")]) ++
                 [AEvent (ESetArmed true)])) as [m Hm].
    rewrite waits_actions in Hm.
    destruct (poll _ _ _ _) as [[] fl2|fl2]; cbn in Hm; [done|].
    intros [= <-]. eexists. split.
    + rewrite Hm, Hn, <- !app_assoc. reflexivity.
    + right. rewrite !List.filter_app, !filter_waits. reflexivity.
  - intros [= <-]. eexists. split; [exact Hn|]. left. apply filter_waits.
Qed.

Lemma start_auto_mission_blocked_sample :
  ∃ acts,
    actions (flight_of (start_auto_mission
               {| readings := [reading false false 0 0; reading true false 0 1;
                               reading true false 0 2];
                  actions := [] |})) = acts ∧
    (List.filter reaches_vehicle acts = [] ∨
     List.filter reaches_vehicle acts =
       [AEvent (ESetMode "GUIDED"); AEvent (ESetArmed true)]).
Proof.
  destruct (start_auto_mission_blocked
              {| readings := [reading false false 0 0; reading true false 0 1;
                              reading true false 0 2];
                 actions := [] |}
              (flight_of (start_auto_mission
                 {| readings := [reading false false 0 0;
                                 reading true false 0 1;
                                 reading true false 0 2];
                    actions := [] |})) eq_refl) as (acts & Hacts & Hsel).
  exists acts. split; [exact Hacts|exact Hsel].
Defined.

(** What one call of [send_attitude_target] does. *)
Lemma send_attitude_target_run `{Geometry} roll pitch yaw rate use thrust fl :
  send_attitude_target roll pitch yaw rate use thrust fl =
  match yaw, readings fl with
  | Some y, _ =>
      Returned tt {| readings := readings fl;
                     actions := actions fl ++
                       [ASendMavlink (attitude_message roll pitch y rate use
                                        thrust)] |}
  | None, r :: rs =>
      Returned tt {| readings := rs;
                     actions := actions fl ++
                       [ASendMavlink (attitude_message roll pitch
                                        (attitude_yaw r) rate use thrust)] |}
  | None, [] => Blocked fl
  end.
Proof.
  unfold send_attitude_target. rewrite fly_bind_run.
  destruct yaw as [y|]; [reflexivity|].
  unfold observe. by destruct (readings fl).
Qed.

(** X19.  With a heading given, [set_attitude] takes its readings from
    the wall clock only: the first is the start, and it returns exactly
    when a later one is not within the duration of the start.  It has then
    sent the attitude message once, then once more followed by a pause of
    a tenth of a second for each reading found within the duration, and
    last the reset message (level, no yaw rate, rates used, the same
    thrust): two messages more than there were such readings. *)
Theorem set_attitude_run `{Geometry} roll_angle pitch_angle yaw yaw_rate
    use_yaw_rate thrust duration fl fl' :
  set_attitude roll_angle pitch_angle (Some yaw) yaw_rate use_yaw_rate thrust
    duration fl = Returned tt fl' ↔
  ∃ r0 during r1 rest,
    readings fl = r0 :: during ++ r1 :: rest ∧
    Forall (λ r, (wall_clock r - wall_clock r0 < duration)%Q) during ∧
    (duration <= wall_clock r1 - wall_clock r0)%Q ∧
    fl' = {| readings := rest;
             actions :=
               actions fl ++
               [ASendMavlink (attitude_message roll_angle pitch_angle yaw
                                yaw_rate use_yaw_rate thrust)] ++
               concat (replicate (length during)
                 [ASendMavlink (attitude_message roll_angle pitch_angle yaw
                                  yaw_rate use_yaw_rate thrust);
                  APause (1 # 10)]) ++
               [ASendMavlink (attitude_message 0 0 0 0 true thrust)] |}.
Proof.
  unfold set_attitude.
  rewrite fly_bind_run, send_attitude_target_run, fly_bind_run.
  unfold observe at 1. cbn [readings actions].
  destruct (readings fl) as [|r0 rs] eqn:Hrs.
  { split; [done|]. by intros (? & ? & ? & ? & ? & _). }
  rewrite fly_bind_run.
  rewrite (whilst_poll _ _
             (λ r, Qlt_bool (wall_clock r - wall_clock r0) duration)
             [ASendMavlink (attitude_message roll_angle pitch_angle yaw
                              yaw_rate use_yaw_rate thrust);
              APause (1 # 10)]); cycle 1.
  { intros fl0. rewrite fly_bind_run. unfold observe.
    by destruct (readings fl0). }
  { intros fl0. rewrite fly_bind_run, send_attitude_target_run.
    unfold act. cbn. by rewrite <- app_assoc. }
  cbn [readings actions]. split.
  - destruct (poll _ _ _ _) as [[] fl1|] eqn:Hpoll; [|done].
    apply poll_returned in Hpoll as (during & r1 & rest & -> & Hpre & Hr1 & ->).
    rewrite send_attitude_target_run. intros [= <-].
    exists r0, during, r1, rest. split_and!; try done.
    + eapply Forall_impl; [exact Hpre|]. intros r. apply Qlt_bool_true.
    + by apply Qlt_bool_false.
    + cbn. by rewrite <- !app_assoc.
  - intros (r0' & during & r1 & rest & [= <- ->] & Hpre & Hr1 & ->).
    rewrite (proj2 (poll_returned _ _ _ _ _)
               (ex_intro _ during (ex_intro _ r1 (ex_intro _ rest
                  (conj eq_refl (conj
                     (Forall_impl _ _ _ Hpre
                        (λ r, proj2 (Qlt_bool_true _ _)))
                     (conj (proj2 (Qlt_bool_false _ _) Hr1) eq_refl))))))).
    rewrite send_attitude_target_run. cbn. by rewrite <- !app_assoc.
Qed.

(** A loop that polls in its condition and reads once more in its body is
    the recursion [poll_read] on the readings. *)
Section polling_read.
Variables (cond : Fly bool) (body : Fly unit).
Variables (test : Reading → bool) (acts : Reading → list Action).
Hypothesis cond_run : ∀ fl,
  cond fl = match readings fl with
            | [] => Blocked fl
            | r :: rs => Returned (test r) {| readings := rs; actions := actions fl |}
            end.
Hypothesis body_run : ∀ fl,
  body fl = match readings fl with
            | [] => Blocked fl
            | y :: rs =>
                Returned tt {| readings := rs; actions := actions fl ++ acts y |}
            end.

Lemma rounds_poll_read : ∀ n rs done,
  (length rs < n)%nat →
  rounds n (b ← cond; if b : bool then body;; mret true else mret false)
    {| readings := rs; actions := done |} =
  poll_read test acts rs done.
Proof.
  induction n as [|n IH]; intros rs done Hn; [lia|].
  cbn [rounds]. rewrite fly_bind_run, cond_run. cbn [readings actions].
  destruct rs as [|r rs]; [reflexivity|]. cbn [poll_read].
  destruct (test r); [|reflexivity].
  rewrite fly_bind_run, body_run. cbn [readings actions].
  destruct rs as [|y rs]; [reflexivity|].
  cbn. apply IH. cbn in Hn. lia.
Qed.

Lemma whilst_poll_read fl :
  whilst cond body fl = poll_read test acts (readings fl) (actions fl).
Proof.
  unfold whilst. rewrite <- (flight_eta fl) at 2. apply rounds_poll_read. lia.
Qed.
End polling_read.

Lemma poll_read_returned test acts : ∀ n rs done fl',
  (length rs <= n)%nat →
  poll_read test acts rs done = Returned tt fl' ↔
  ∃ rounds r rest,
    rs = paired rounds ++ r :: rest ∧
    Forall (λ p, test p.1 = true) rounds ∧ test r = false ∧
    fl' = {| readings := rest;
             actions := done ++ concat (map (λ p, acts p.2) rounds) |}.
Proof.
  induction n as [|n IH]; intros rs done fl' Hn.
  { destruct rs; [|cbn in Hn; lia]. cbn. split; [done|].
    intros ([|??] & ? & ? & ? & _); done. }
  destruct rs as [|r rs]; cbn [poll_read].
  { split; [done|]. intros ([|??] & ? & ? & ? & _); done. }
  destruct (test r) eqn:Hr.
  - destruct rs as [|y rs].
    + split; [done|].
      intros ([|[r' y'] rounds] & r1 & rest & Hrs & Hrounds & Hr1 & _);
        cbn in Hrs; [congruence|]. by destruct rounds.
    + rewrite IH by (cbn in Hn; lia). split.
      * intros (rounds & r1 & rest & -> & Hrounds & Hr1 & ->).
        exists ((r, y) :: rounds), r1, rest. split_and!; try done.
        -- by constructor.
        -- cbn. by rewrite app_assoc.
      * intros ([|[r' y'] rounds] & r1 & rest & Hrs & Hrounds & Hr1 & ->);
          cbn in Hrs.
        { injection Hrs as -> _. congruence. }
        injection Hrs as -> -> ->. inversion_clear Hrounds.
        exists rounds, r1, rest. split_and!; try done.
        cbn. by rewrite app_assoc.
  - split.
    + intros [= <-]. exists [], r, rs. cbn. by rewrite app_nil_r.
    + intros ([|[r' y'] rounds] & r1 & rest & Hrs & Hrounds & Hr1 & ->);
        cbn in Hrs.
      * injection Hrs as -> ->. cbn. by rewrite app_nil_r.
      * injection Hrs as -> _. inversion_clear Hrounds. cbn in *. congruence.
Qed.

Lemma poll_read_run test acts rounds r rest done :
  Forall (λ p, test p.1 = true) rounds → test r = false →
  poll_read test acts (paired rounds ++ r :: rest) done =
  Returned tt {| readings := rest;
                 actions := done ++ concat (map (λ p, acts p.2) rounds) |}.
Proof.
  intros Hrounds Hr. eapply poll_read_returned; [reflexivity|].
  by exists rounds, r, rest.
Qed.

(** X20.  With no heading given, [set_attitude] reads the heading anew for
    every attitude message, just before it sends it: it reads the heading,
    sends, reads the start time, and then for each clock reading within
    the duration of the start it reads the heading again, sends the
    attitude with that heading and pauses a tenth of a second.  It returns
    exactly when a test reading is not within the duration, and has then
    sent, after these messages, the reset message (level, no yaw rate,
    rates used, the same thrust) last. *)
Theorem set_attitude_heading_run `{Geometry} roll_angle pitch_angle yaw_rate
    use_yaw_rate thrust duration fl fl' :
  set_attitude roll_angle pitch_angle None yaw_rate use_yaw_rate thrust
    duration fl = Returned tt fl' ↔
  ∃ ry r0 during r1 rest,
    readings fl = ry :: r0 :: paired during ++ r1 :: rest ∧
    Forall (λ p, (wall_clock p.1 - wall_clock r0 < duration)%Q) during ∧
    (duration <= wall_clock r1 - wall_clock r0)%Q ∧
    fl' = {| readings := rest;
             actions :=
               actions fl ++
               [ASendMavlink (attitude_message roll_angle pitch_angle
                                (attitude_yaw ry) yaw_rate use_yaw_rate
                                thrust)] ++
               concat (map (λ p,
                 [ASendMavlink (attitude_message roll_angle pitch_angle
                                  (attitude_yaw p.2) yaw_rate use_yaw_rate
                                  thrust);
                  APause (1 # 10)]) during) ++
               [ASendMavlink (attitude_message 0 0 0 0 true thrust)] |}.
Proof.
  unfold set_attitude.
  rewrite fly_bind_run, send_attitude_target_run.
  destruct (readings fl) as [|ry rs] eqn:Hrs.
  { split; [done|]. by intros (? & ? & ? & ? & ? & ? & _). }
  rewrite fly_bind_run. unfold observe at 1. cbn [readings actions].
  destruct rs as [|r0 rs].
  { split; [done|]. by intros (? & ? & ? & ? & ? & ? & _). }
  rewrite fly_bind_run.
  rewrite (whilst_poll_read _ _
             (λ r, Qlt_bool (wall_clock r - wall_clock r0) duration)
             (λ y, [ASendMavlink (attitude_message roll_angle pitch_angle
                                    (attitude_yaw y) yaw_rate use_yaw_rate
                                    thrust);
                    APause (1 # 10)])); cycle 1.
  { intros fl0. rewrite fly_bind_run. unfold observe.
    by destruct (readings fl0). }
  { intros fl0. rewrite fly_bind_run, send_attitude_target_run.
    destruct (readings fl0); [reflexivity|].
    unfold act. cbn. by rewrite <- app_assoc. }
  cbn [readings actions]. split.
  - destruct (poll_read _ _ _ _) as [[] fl1|] eqn:Hpoll; [|done].
    apply (poll_read_returned _ _ (length rs)) in Hpoll
      as (during & r1 & rest & -> & Hpre & Hr1 & ->); [|done].
    rewrite send_attitude_target_run. intros [= <-].
    exists ry, r0, during, r1, rest. split_and!; try done.
    + eapply Forall_impl; [exact Hpre|]. intros p. apply Qlt_bool_true.
    + by apply Qlt_bool_false.
    + cbn. by rewrite <- !app_assoc.
  - intros (ry' & r0' & during & r1 & rest & [= <- <- ->] & Hpre & Hr1 & ->).
    rewrite poll_read_run; cycle 1.
    { eapply Forall_impl; [exact Hpre|]. intros p. apply Qlt_bool_true. }
    { by apply Qlt_bool_false. }
    rewrite send_attitude_target_run. cbn. by rewrite <- !app_assoc.
Qed.

(** Two headings, two attitude messages: the second is sent with the
    heading read for it. *)
Example set_attitude_heading_sample :
  actions (flight_of (@set_attitude sample_geometry 5 0 None 0 false (1 # 2) 1
                        {| readings := attitude_readings; actions := [] |})) =
  [ASendMavlink (@attitude_message sample_geometry 5 0 10 0 false (1 # 2));
   ASendMavlink (@attitude_message sample_geometry 5 0 20 0 false (1 # 2));
   APause (1 # 10);
   ASendMavlink (@attitude_message sample_geometry 0 0 0 0 true (1 # 2))].
Proof. reflexivity. Qed.

Lemma whilst_stops cond body fl fl' :
  cond fl = Returned false fl' → whilst cond body fl = Returned tt fl'.
Proof.
  intros Hcond. unfold whilst. cbn [rounds]. by rewrite fly_bind_run, Hcond.
Qed.

(** X21.  With no heading given, [set_attitude] reads the heading for its
    first message before it reads the clock.  When the duration has
    elapsed at the first test (as with the default duration 0 when the
    clock has not gone back) it takes three readings (heading, start,
    test) and sends two messages, the attitude with that heading and the
    reset, without a pause. *)
Theorem set_attitude_current_heading `{Geometry} roll_angle pitch_angle
    yaw_rate use_yaw_rate thrust duration fl ry r0 r1 rest :
  readings fl = ry :: r0 :: r1 :: rest →
  (duration <= wall_clock r1 - wall_clock r0)%Q →
  set_attitude roll_angle pitch_angle None yaw_rate use_yaw_rate thrust
    duration fl =
  Returned tt
    {| readings := rest;
       actions :=
         actions fl ++
         [ASendMavlink (attitude_message roll_angle pitch_angle
                          (attitude_yaw ry) yaw_rate use_yaw_rate thrust);
          ASendMavlink (attitude_message 0 0 0 0 true thrust)] |}.
Proof.
  intros Hrs Helapsed. apply Qlt_bool_false in Helapsed.
  unfold set_attitude.
  rewrite fly_bind_run, send_attitude_target_run, Hrs, fly_bind_run.
  unfold observe at 1. cbn [readings actions]. rewrite fly_bind_run.
  erewrite whilst_stops; cycle 1.
  { rewrite fly_bind_run. unfold observe. cbn [readings actions].
    cbn [mret Fly_ret]. rewrite Helapsed. reflexivity. }
  rewrite send_attitude_target_run. cbn. by rewrite <- app_assoc.
Qed.

Lemma set_attitude_current_heading_sample :
  @set_attitude sample_geometry 5 0 None 0 false (1 # 2) 0
    {| readings := attitude_readings; actions := [] |} =
  Returned tt
    {| readings := [reading true true 20 (1 # 2); reading true true 30 (6 # 5)];
       actions :=
         [ASendMavlink (@attitude_message sample_geometry 5 0 10 0 false (1 # 2));
          ASendMavlink (@attitude_message sample_geometry 0 0 0 0 true (1 # 2))] |}.
Proof.
  apply (@set_attitude_current_heading sample_geometry 5 0 0 false (1 # 2) 0
           {| readings := attitude_readings; actions := [] |}
           (reading true true 10 0) (reading true true 10 0)
           (reading true true 10 (1 # 2))
           [reading true true 20 (1 # 2); reading true true 30 (6 # 5)]).
  - reflexivity.
  - vm_compute. discriminate.
Defined.

Example start_auto_mission_sample :
  start_auto_mission
    {| readings := [reading false false 0 0; reading true false 0 1;
                    reading true false 0 2; reading true true 0 3];
       actions := [] |} =
  Returned tt
    {| readings := [];
       actions :=
         [AEvent (EPrint " Waiting for vehicle to initialise..." None);
          AEvent (ESleep 1);
          AEvent (ESetMode "GUIDED"); AEvent (ESetArmed true);
          AEvent (EPrint " Waiting for arming..." None); AEvent (ESleep 1);
          ANextCommand 0; AEvent (ESetMode "AUTO");
          ASendMavlink (command_long_encode 0 0 MAV_CMD_MISSION_START 0
                          [0; 0; 0; 0; 0; 0; 0]%Z);
          ANextCommand 0] |}.
Proof. reflexivity. Qed.

Example set_attitude_sample :
  map reaches_vehicle
    (actions (flight_of (@set_attitude sample_geometry 5 0 (Some 90%Q) 0 false
                           (1 # 2) 1
                           {| readings := attitude_readings; actions := [] |}))) =
  [true; true; false; true; false; true; false; true] ∧
  length (readings (flight_of (@set_attitude sample_geometry 5 0 (Some 90%Q) 0
                                 false (1 # 2) 1
                                 {| readings := attitude_readings;
                                    actions := [] |}))) = 0%nat.
Proof. split; reflexivity. Qed.
